(** * Finance Tracker API: a functional model of [main.py]

    The service is a set of Flask-RESTful resources over three SQLAlchemy
    tables ([user], [token_blocklist], [transaction]).  Each resource method
    is modelled as a function from the request (credentials, JSON body or
    query arguments), the per-request inputs of the outside world (clock,
    salt, fresh token identifier) and the database to a response and the
    database after the request.

    Conventions of the model:
    - a request body is the value [request.get_json()] returns, and the
      query arguments are the first value of each key; a request Flask
      answers before any hook runs (no JSON body, no such route) is not a
      request of the model;
    - [Swagger(app, parse = True)] installs a [before_request] hook that
      parses and checks the request against the parameters its route
      declares with [swag_from] and answers 400 when they are not met; each
      resource method is modelled together with this hook, which runs before
      it and so before [jwt_required];
    - the resources are served through [Api(app)] with
      [PROPAGATE_EXCEPTIONS] unset: an exception raised inside a resource
      method, those of [jwt_required] included, is answered by Flask-RESTful
      with status 500, and the session is rolled back;
    - a table is the list of its rows in insertion order; a [select] without
      [ORDER BY] and without [GROUP BY] scans it in that order;
    - an [Integer] column holds an unbounded integer, and the primary key of
      a new row is one past the largest key in its table;
    - what the libraries the code calls compute on strings (Python's
      [int(str)], ISO-8601 parsing and printing, e-mail syntax, password
      hashing, token encoding, the texts of error messages) and what the
      configured database does (binding a value that is not of the column's
      Python type, comparing a date with a string, ordering the groups of a
      [GROUP BY]) are fields of [Env], over which every definition and
      theorem is generic. *)

From Stdlib Require Import ZArith SpecFloat.
From stdpp Require Import gmap strings list fin_maps pretty sorting.

Set Warnings "-register-all,-clear-no-such-hyp".
Open Scope Z_scope.

(** ** Python and JSON values *)

(** [datetime.datetime]; a [datetime.date] bound to a [DateTime] column is
    the same day at midnight. *)
Record datetime := mk_datetime {
  dt_year : Z; dt_month : Z; dt_day : Z;
  dt_hour : Z; dt_minute : Z; dt_second : Z; dt_microsecond : Z
}.

(** What [request.get_json()] returns: [json.loads] maps a JSON number
    without fraction or exponent to an [int], any other number to a binary
    float, and an object to a [dict]. *)
Inductive json :=
| JNull
| JBool (b : bool)
| JInt (n : Z)
| JFloat (f : spec_float)
| JStr (s : string)
| JArr (l : list json)
| JObj (m : gmap string json).

(** [int(f)] on a float: truncation toward zero; [nan] raises [ValueError]
    and an infinity [OverflowError]. *)
Definition int_of_float (f : spec_float) : option Z :=
  match f with
  | S754_zero _ => Some 0
  | S754_finite s m e =>
      let a := Z.shiftl (Z.pos m) e in Some (if s then - a else a)
  | _ => None
  end.

(** [f == n] between a float and an [int]: Python compares the exact
    values. *)
Definition float_eq_int (f : spec_float) (n : Z) : bool :=
  match f with
  | S754_zero _ => n =? 0
  | S754_finite s m e =>
      let a := Z.shiftl (Z.pos m) e in
      (Z.shiftl a (- e) =? Z.pos m) && ((if s then - a else a) =? n)
  | _ => false
  end.

(** [f.is_integer()] on a float: finite, without a fractional part. *)
Definition float_is_integer (f : spec_float) : bool :=
  match int_of_float f with
  | Some n => float_eq_int f n
  | None => false
  end.

(** ** JSON Schema, as far as the declared parameters use it *)

Module jsonschema.

Inductive instance_type := TInteger | TString.

(** The schema of one property: its [type], and [enum] and [format] when
    it has them. *)
Record property := mk_property {
  p_type : instance_type;
  p_enum : option (list string);
  p_format : option string
}.

(** An object schema: [properties] and [required]. *)
Record schema := mk_schema {
  properties : list (string * property);
  required_properties : list string
}.

(** The [type] keyword.  A [bool] is not an integer; a float without a
    fractional part is one. *)
Definition is_type (ty : instance_type) (instance : json) : bool :=
  match ty, instance with
  | TInteger, JInt _ => true
  | TInteger, JFloat f => float_is_integer f
  | TString, JStr _ => true
  | _, _ => false
  end.

Section WithFormatChecker.
Context (format_checker : string -> string -> bool).

Definition property_is_valid (p : property) (instance : json) : bool :=
  is_type (p_type p) instance
  && match p_enum p with
     | Some choices =>
         match instance with
         | JStr x => bool_decide (x ∈ choices)
         | _ => false
         end
     | None => true
     end
  && match p_format p, instance with
     | Some f, JStr x => format_checker f x
     | _, _ => true
     end.

(** Does [validate(instance, schema, format_checker)] return without
    raising?  [properties] and [required] constrain objects only. *)
Definition is_valid (sch : schema) (instance : json) : bool :=
  match instance with
  | JObj m =>
      forallb (fun np : string * property =>
                 match m !! np.1 with
                 | Some v => property_is_valid np.2 v
                 | None => true
                 end) (properties sch)
      && forallb (fun k => bool_decide (is_Some (m !! k)))
                 (required_properties sch)
  | _ => true
  end.

End WithFormatChecker.

End jsonschema.

(** The claims of an access token: identity, token identifier, not-before
    and expiry times in seconds. *)
Record jwt := mk_jwt { sub : string; jti : string; nbf : Z; exp : Z }.

(** ** The environment: libraries and database driver *)

Record Env := {
  (** [int(s)] on a [str]; [None] when it raises [ValueError] *)
  py_int_of_str : string -> option Z;
  (** marshmallow's ISO-8601 reader; [None] when it raises *)
  from_iso_datetime : string -> option datetime;
  (** [datetime.isoformat()] *)
  isoformat : datetime -> string;
  (** [validate.Email()] *)
  email_ok : string -> bool;
  (** [generate_password_hash(password, ...)] with the salt it draws *)
  generate_password_hash : string -> string -> string;
  (** [check_password_hash(pwhash, password)] *)
  check_password_hash : string -> string -> bool;
  (** the signed, encoded form of a token *)
  encode_token : jwt -> string;
  (** the driver binding a value that is not an [int] to an [Integer]
      column; [None] when the statement fails *)
  bind_integer : json -> option Z;
  (** the driver binding a [str] to a [DateTime] column *)
  bind_datetime : string -> option datetime;
  (** the database comparing a [DateTime] column with a string:
      [column >= s] and [column <= s] *)
  date_ge : datetime -> string -> bool;
  date_le : datetime -> string -> bool;
  (** the cap [db.paginate] puts on [per_page] when the caller passes
      none; [None] when it puts no cap *)
  max_per_page : option Z;
  (** the order in which the database returns the groups of a
      [GROUP BY] without [ORDER BY], given them in order of first
      appearance *)
  order_groups : list (string * Z) -> list (string * Z);
  (** the format checker flasgger hands to [jsonschema]: does a string
      conform to the named format ([true] throughout where formats are not
      checked) *)
  format_checker : string -> string -> bool;
  (** the text of the [ValueError] that [int(s)] raises *)
  int_error : string -> string;
  (** the body of the answer to an instance that a declared schema
      refuses, made of the validator's message *)
  schema_error : jsonschema.schema -> json -> json
}.

(** ** marshmallow: fields, validators, [Schema.validate] *)

Module marshmallow.

(** A deserialized field value. *)
Inductive value :=
| VInt (n : Z)
| VStr (s : string)
| VDateTime (d : datetime).

Inductive kind := Int | Str | DateTime.

Inductive validator :=
| Range (min : Z) (error : string)
| OneOf (choices : list string)
| Email.

Record field := mk_field {
  f_kind : kind;
  required : bool;
  dump_only : bool;
  load_only : bool;
  validate : list validator
}.

Definition Schema := list (string * field).

(** [partial = True], or the tuple of field names given as [partial]
    ([()] when the argument is left out). *)
Inductive partial := PartialAll | PartialOnly (names : list string).

Definition is_partial (p : partial) (name : string) : bool :=
  match p with
  | PartialAll => true
  | PartialOnly names => bool_decide (name ∈ names)
  end.

Definition errors := gmap string (list string).

Section WithEnv.
Context (E : Env).

(** [Field._deserialize] on a value that is present and not [None]. *)
Definition deserialize (k : kind) (v : json) : value + string :=
  match k with
  | Int =>
      match v with
      | JInt n => inl (VInt n)
      | JFloat (S754_infinity _) => inr "Number too large."
      | JFloat f =>
          match int_of_float f with
          | Some n => inl (VInt n)
          | None => inr "Not a valid integer."
          end
      | JStr s =>
          match py_int_of_str E s with
          | Some n => inl (VInt n)
          | None => inr "Not a valid integer."
          end
      | _ => inr "Not a valid integer."
      end
  | Str =>
      match v with
      | JStr s => inl (VStr s)
      | _ => inr "Not a valid string."
      end
  | DateTime =>
      match v with
      | JStr s =>
          if bool_decide (s = "") then inr "Not a valid datetime."
          else match from_iso_datetime E s with
               | Some d => inl (VDateTime d)
               | None => inr "Not a valid datetime."
               end
      | _ => inr "Not a valid datetime."
      end
  end.

(** One validator on a deserialized value: the message it raises. *)
Definition run_validator (c : validator) (x : value) : option string :=
  match c, x with
  | Range min error, VInt n => if n <? min then Some error else None
  | OneOf choices, VStr s =>
      if bool_decide (s ∈ choices) then None
      else Some ("Must be one of: " +:+ String.concat ", " choices +:+ ".")
  | Email, VStr s =>
      if email_ok E s then None else Some "Not a valid email address."
  | _, _ => None
  end.

(** [Field.deserialize]: the messages for one field of the input, [[]]
    when it is accepted. *)
Definition field_errors (p : partial) (name : string) (f : field)
    (v : option json) : list string :=
  match v with
  | None =>
      if required f && negb (is_partial p name)
      then ["Missing data for required field."] else []
  | Some JNull => ["Field may not be null."]
  | Some v =>
      match deserialize (f_kind f) v with
      | inr msg => [msg]
      | inl x => omap (fun c => run_validator c x) (validate f)
      end
  end.

Definition load_fields (sch : Schema) : Schema :=
  filter (fun nf => dump_only nf.2 = false) sch.

(** [Schema.validate(data, partial=p)]: the error dictionary. *)
Definition Schema_validate (sch : Schema) (p : partial) (data : json) : errors :=
  match data with
  | JObj m =>
      list_to_map
        (omap (fun nf : string * field =>
                 match field_errors p nf.1 nf.2 (m !! nf.1) with
                 | [] => None
                 | msgs => Some (nf.1, msgs)
                 end) (load_fields sch))
      ∪ ((fun _ => ["Unknown field."]) <$>
           filter (fun kv : string * json => kv.1 ∉ (load_fields sch).*1) m)
  | _ => {[ "_schema" := ["Invalid input type."] ]}
  end.

End WithEnv.

(** The error dictionary as it is sent in a response. *)
Definition errors_json (e : errors) : json :=
  JObj ((fun msgs => JArr (JStr <$> msgs)) <$> e).

End marshmallow.

(** ** Models: the three tables *)

Module User.
Record t := mk {
  user_id : Z;
  name : string;
  email : string;
  password : string;
  created_at : datetime
}.
End User.

Module TokenBlocklist.
Record t := mk { id : Z; jti : string }.
End TokenBlocklist.

Module Transaction.
Record t := mk {
  id : Z;
  user_id : Z;
  amount : Z;
  type : string;
  category : string;
  date : datetime;
  note : string
}.
End Transaction.

Record db := mk_db {
  users : list User.t;
  token_blocklist : list TokenBlocklist.t;
  transactions : list Transaction.t
}.

(** The key the database gives a new row. *)
Definition fresh_id (keys : list Z) : Z := 1 + foldr Z.max 0 keys.

(** ** Requests and responses *)

(** What the outside world contributes to one request. *)
Record world := mk_world {
  now : Z;               (** the clock, in seconds *)
  today : datetime;      (** [datetime.date.today()], at midnight *)
  datetime_now : datetime;  (** [datetime.datetime.now()] *)
  salt : string;         (** the salt [generate_password_hash] draws *)
  uuid : string          (** the identifier given to a new token *)
}.

(** The [Authorization] header as [jwt_required] sees it: absent, present
    without a token that decodes and verifies, or a verified token with its
    claims. *)
Inductive authorization :=
| NoAuthorization
| Unverified
| Bearer (t : jwt).

Record response := mk_response { status : Z; body : json }.

Definition obj (kvs : list (string * json)) : json := JObj (list_to_map kvs).

(** [Api.handle_error] of Flask-RESTful on an exception that is not an
    [HTTPException], with [PROPAGATE_EXCEPTIONS] unset and [debug = False]:
    status 500 with the status message.  The handlers the application and
    Flask-JWT-Extended register with [app.errorhandler] ([server_error]
    among them) are not consulted on a route of the [Api]. *)
Definition Api_handle_error : response :=
  mk_response 500 (obj [("message", JStr "Internal Server Error")]).

(** ** Routes *)

Inductive request :=
| Register (data : json)
| Login (data : json)
| Logout
| AddTransaction (data : json)
| GetTransactions (args : gmap string string)
| EditTransaction (transaction_id : Z) (data : json)
| DeleteTransaction (transaction_id : Z)
| MonthlySummary (args : gmap string string)
| CategoryBreakdown (args : gmap string string).

(** ** The parameters declared with [swag_from] *)

Import jsonschema.

Definition string_property : property := mk_property TString None None.
Definition integer_property : property := mk_property TInteger None None.

(** The body schema of [Register.post]. *)
Definition Register_parameters : schema :=
  mk_schema [ ("name", string_property);
              ("email", string_property);
              ("password", string_property) ]
            ["name"; "email"; "password"].

(** The body schema of [Login.post]. *)
Definition Login_parameters : schema :=
  mk_schema [ ("email", string_property);
              ("password", string_property) ]
            ["email"; "password"].

(** The body schema of [AddTransaction.post]. *)
Definition AddTransaction_parameters : schema :=
  mk_schema [ ("amount", integer_property);
              ("type", mk_property TString (Some ["income"; "expense"]) None);
              ("category", string_property);
              ("date", mk_property TString None (Some "date"));
              ("note", string_property) ]
            ["amount"; "type"; "category"].

(** The body schema of [EditTransaction.patch]; the path parameter
    [transaction_id] is an integer by its route converter. *)
Definition EditTransaction_parameters : schema :=
  mk_schema [ ("amount", integer_property);
              ("type", mk_property TString (Some ["income"; "expense"]) None);
              ("category", string_property);
              ("note", string_property) ]
            [].

(** The query parameters of [GetTransactions.get], none of them required. *)
Definition GetTransactions_parameters : schema :=
  mk_schema [ ("page", integer_property);
              ("per_page", integer_property);
              ("type", mk_property TString (Some ["income"; "expense"]) None);
              ("category", string_property);
              ("start_date", mk_property TString None (Some "date"));
              ("end_date", mk_property TString None (Some "date")) ]
            [].

(** The query parameters of [MonthlySummary.get] and of
    [CategoryBreakdown.get]. *)
Definition report_parameters : schema :=
  mk_schema [ ("year", integer_property); ("month", integer_property) ] [].

(** ** Schemas *)

Import marshmallow.

Definition UserSchema : Schema :=
  [ ("user_id", mk_field Int false true false []);
    ("name", mk_field Str true false false []);
    ("email", mk_field Str true false false [Email]);
    ("password", mk_field Str true false true []);
    ("created_at", mk_field DateTime false true false []) ].

Definition TransactionSchema : Schema :=
  [ ("id", mk_field Int false true false []);
    ("user_id", mk_field Int false true false []);
    ("amount", mk_field Int true false false [Range 1 "amount must be positive"]);
    ("type", mk_field Str true false false [OneOf ["income"; "expense"]]);
    ("category", mk_field Str true false false []);
    ("date", mk_field DateTime false false false []);
    ("note", mk_field Str false false false []) ].

(** What [db.paginate] returns. *)
Module Pagination.
Record t := mk {
  items : list Transaction.t;
  total : Z;
  page : Z;
  pages : Z;
  per_page : Z
}.
End Pagination.

Section Service.
Context (E : Env).

(** [user_schema.dump(user)]: [password] is load-only. *)
Definition user_schema_dump (u : User.t) : json :=
  obj [ ("user_id", JInt (User.user_id u));
        ("name", JStr (User.name u));
        ("email", JStr (User.email u));
        ("created_at", JStr (isoformat E (User.created_at u))) ].

(** [transaction_schema.dump(t)] *)
Definition transaction_schema_dump (t : Transaction.t) : json :=
  obj [ ("id", JInt (Transaction.id t));
        ("user_id", JInt (Transaction.user_id t));
        ("amount", JInt (Transaction.amount t));
        ("type", JStr (Transaction.type t));
        ("category", JStr (Transaction.category t));
        ("date", JStr (isoformat E (Transaction.date t)));
        ("note", JStr (Transaction.note t)) ].

(** [if errors: return {"errors": errors}, 400] *)
Definition validation_failed (errs : errors) : response :=
  mk_response 400 (obj [("errors", errors_json errs)]).

(** *** The [before_request] hook of flasgger *)

(** [request.json or {}]: what is validated in place of a body that is
    false in Python. *)
Definition falsy (v : json) : bool :=
  match v with
  | JNull => true
  | JBool b => negb b
  | JInt n => n =? 0
  | JFloat (S754_zero _) => true
  | JFloat _ => false
  | JStr x => bool_decide (x = "")
  | JArr l => match l with [] => true | _ => false end
  | JObj m => match map_to_list m with [] => true | _ => false end
  end.

(** A declared body: [jsonschema.validate(request.json or {}, schema)],
    answered with 400 when it raises. *)
Definition parse_json (sch : schema) (data : json) : option response :=
  let instance := if falsy data then JObj ∅ else data in
  if is_valid (format_checker E) sch instance then None
  else Some (mk_response 400 (schema_error E sch instance)).

(** [Argument.convert]: a query argument as the declared type. *)
Definition convert (ty : instance_type) (v : string) : option json :=
  match ty with
  | TInteger => JInt <$> py_int_of_str E v
  | TString => Some (JStr v)
  end.

(** [RequestParser.parse_args()] over the declared query parameters, with
    [store_missing = False]: the arguments that are present, converted, or
    the first one that does not convert. *)
Fixpoint parse_args (params : list (string * property))
    (args : gmap string string) : string * string + gmap string json :=
  match params with
  | [] => inr ∅
  | (name, p) :: params =>
      match args !! name with
      | None => parse_args params args
      | Some v =>
          match convert (p_type p) v with
          | None => inl (name, v)
          | Some x =>
              match parse_args params args with
              | inl e => inl e
              | inr namespace => inr (<[name := x]> namespace)
              end
          end
      end
  end.

(** Declared query parameters: parsed, then validated; 400 when either
    step fails. *)
Definition parse_query (sch : schema) (args : gmap string string)
    : option response :=
  match parse_args (properties sch) args with
  | inl (name, v) =>
      Some (mk_response 400
              (obj [("message", obj [(name, JStr (int_error E v))])]))
  | inr namespace =>
      if is_valid (format_checker E) sch (JObj namespace) then None
      else Some (mk_response 400 (schema_error E sch (JObj namespace)))
  end.

(** The hook on each route: the response that ends the request, if the
    declared parameters are not met.  [Logout.post] declares none, and the
    path parameter of the edit and delete routes is an integer already. *)
Definition parse_request (r : request) : option response :=
  match r with
  | Register data => parse_json Register_parameters data
  | Login data => parse_json Login_parameters data
  | Logout => None
  | AddTransaction data => parse_json AddTransaction_parameters data
  | GetTransactions args => parse_query GetTransactions_parameters args
  | EditTransaction _ data => parse_json EditTransaction_parameters data
  | DeleteTransaction _ => None
  | MonthlySummary args => parse_query report_parameters args
  | CategoryBreakdown args => parse_query report_parameters args
  end.

(** *** Token check *)

(** [check_if_token_revoked]: is there a blocklist row with this [jti]? *)
Definition check_if_token_revoked (s : db) (jwt_payload : jwt) : bool :=
  bool_decide (Exists (fun r => TokenBlocklist.jti r = jti jwt_payload)
                      (token_blocklist s)).

(** The exceptions [verify_jwt_in_request] raises. *)
Inductive jwt_exception :=
| NoAuthorizationError
| DecodeError
| ImmatureSignatureError
| ExpiredSignatureError
| RevokedTokenError.

(** [verify_jwt_in_request()]: the claims of the token, or the exception
    raised. *)
Definition verify_jwt_in_request (w : world) (s : db) (a : authorization)
    : jwt_exception + jwt :=
  match a with
  | NoAuthorization => inl NoAuthorizationError
  | Unverified => inl DecodeError
  | Bearer t =>
      if now w <? nbf t then inl ImmatureSignatureError
      else if exp t <=? now w then inl ExpiredSignatureError
      else if check_if_token_revoked s t then inl RevokedTokenError
      else inr t
  end.

(** [@jwt_required()] on a resource method: the claims of the token, or
    the response that ends the request.  The exception is raised inside the
    method, so Flask-RESTful answers it. *)
Definition jwt_required (w : world) (s : db) (a : authorization)
    : response + jwt :=
  match verify_jwt_in_request w s a with
  | inl _ => inl Api_handle_error
  | inr t => inr t
  end.

(** [create_access_token(identity = email)] with the one-hour expiry of
    [JWT_ACCESS_TOKEN_EXPIRES]. *)
Definition create_access_token (w : world) (identity : string) : jwt :=
  mk_jwt identity (uuid w) (now w) (now w + 3600).

(** [db.select(User).where(User.email == email)] then [.scalar()] *)
Definition user_by_email (s : db) (email : string) : option User.t :=
  head (filter (fun u => User.email u = email) (users s)).

(** [db.select(Transaction).where(Transaction.id == transaction_id,
    Transaction.user_id == user_id)] then [.scalar()] *)
Definition transaction_by_id_and_owner (s : db) (transaction_id user_id : Z)
    : option Transaction.t :=
  head (filter (fun t => Transaction.id t = transaction_id
                         ∧ Transaction.user_id t = user_id) (transactions s)).

(** *** Register, Login, Logout *)

Definition Register_post (w : world) (s : db) (data : json) : response * db :=
  match parse_request (Register data) with
  | Some r => (r, s)
  | None =>
      let errs := Schema_validate E UserSchema (PartialOnly []) data in
      if bool_decide (errs ≠ ∅) then (validation_failed errs, s)
      else
        match data with
        | JObj m =>
            match m !! "name", m !! "email", m !! "password" with
            | Some (JStr name), Some (JStr email), Some (JStr password) =>
                let new_user :=
                  User.mk (fresh_id (User.user_id <$> users s)) name email
                          (generate_password_hash E password (salt w))
                          (datetime_now w) in
                (* [email] is a unique column: the commit raises when the
                   address is already there *)
                if bool_decide (Exists (fun u => User.email u = email) (users s))
                then (Api_handle_error, s)
                else (mk_response 201 (user_schema_dump new_user),
                      mk_db (users s ++ [new_user]) (token_blocklist s)
                            (transactions s))
            | _, _, _ => (Api_handle_error, s)
            end
        | _ => (Api_handle_error, s)
        end
  end.

Definition Login_post (w : world) (s : db) (data : json) : response * db :=
  match parse_request (Login data) with
  | Some r => (r, s)
  | None =>
      let errs := Schema_validate E UserSchema (PartialOnly ["name"]) data in
      if bool_decide (errs ≠ ∅) then (validation_failed errs, s)
      else
        match data with
        | JObj m =>
            match m !! "email", m !! "password" with
            | Some (JStr email), Some (JStr password) =>
                match user_by_email s email with
                | Some user =>
                    if check_password_hash E (User.password user) password
                    then (mk_response 200
                            (obj [("access_token",
                                   JStr (encode_token E (create_access_token w email)))]),
                          s)
                    else (mk_response 401
                            (obj [("errors", JStr "email or password doesn't exist")]), s)
                | None =>
                    (mk_response 401
                       (obj [("errors", JStr "email or password doesn't exist")]), s)
                end
            | _, _ => (Api_handle_error, s)
            end
        | _ => (Api_handle_error, s)
        end
  end.

Definition Logout_post (w : world) (s : db) (a : authorization) : response * db :=
  match jwt_required w s a with
  | inl r => (r, s)
  | inr t =>
      (mk_response 200 (obj [("message", JStr "successfully logged out")]),
       mk_db (users s)
             (token_blocklist s ++
                [TokenBlocklist.mk
                   (fresh_id (TokenBlocklist.id <$> token_blocklist s)) (jti t)])
             (transactions s))
  end.

(** *** Rows from request data *)

(** [x == n] in Python between a JSON value and an [int]. *)
Definition py_eq_int (v : json) (n : Z) : bool :=
  match v with
  | JInt m => m =? n
  | JFloat f => float_eq_int f n
  | JBool b => (if b then 1 else 0) =? n
  | _ => false
  end.

(** A value bound to an [Integer], a [String] and a [DateTime] column.
    The declared bodies and the schemas let through an [int] or a float
    without a fractional part for an [Integer], and only a [str] for the
    other two; no other value reaches a statement, and the model lets it
    fail. *)
Definition to_integer (v : json) : option Z :=
  match v with
  | JInt n => Some n
  | _ => bind_integer E v
  end.

Definition to_string (v : json) : option string :=
  match v with
  | JStr s => Some s
  | _ => None
  end.

Definition to_datetime (v : json) : option datetime :=
  match v with
  | JStr s => bind_datetime E s
  | _ => None
  end.

(** [Transaction(user_id = user_id, **data)], [db.session.add] and
    [db.session.commit]: the row the [INSERT] stores, or [None] when the
    constructor or the statement raises.  [user_id] twice is a
    [TypeError]; [amount], [type] and [category] are [NOT NULL]; [date]
    and [note] have the column defaults [datetime.date.today] and ["NA"];
    a primary key given and taken violates its constraint.  A key that
    names no column is taken to be refused by the constructor. *)
Definition insert_transaction (w : world) (s : db) (user_id : Z)
    (data : gmap string json) : option Transaction.t :=
  if bool_decide (dom data ⊆ ({[ "id"; "amount"; "type"; "category"; "date"; "note" ]}
                               : gset string))
  then
    id ← match data !! "id" with
         | Some v =>
             n ← to_integer v;
             if bool_decide (n ∈ Transaction.id <$> transactions s) then None
             else Some n
         | None => Some (fresh_id (Transaction.id <$> transactions s))
         end;
    amount ← data !! "amount" ≫= to_integer;
    type ← data !! "type" ≫= to_string;
    category ← data !! "category" ≫= to_string;
    date ← match data !! "date" with
           | Some v => to_datetime v
           | None => Some (today w)
           end;
    note ← match data !! "note" with
           | Some v => to_string v
           | None => Some "NA"
           end;
    Some (Transaction.mk id user_id amount type category date note)
  else None.

(** [setattr(transaction, key, value)] on the attributes set so far. *)
Definition setattr (attrs : gmap string json) (key : string) (value : json)
    : gmap string json :=
  <[key := value]> attrs.

(** The [UPDATE] of [db.session.commit()] for one column: an attribute
    that was not set, or was set to a value equal to the loaded one, keeps
    the stored value; any other is bound to the column. *)
Definition flush_integer (old : Z) (v : option json) : option Z :=
  match v with
  | None => Some old
  | Some v => if py_eq_int v old then Some old else to_integer v
  end.

Definition flush_string (old : string) (v : option json) : option string :=
  match v with
  | None => Some old
  | Some v => to_string v
  end.

Definition flush_datetime (old : datetime) (v : option json) : option datetime :=
  match v with
  | None => Some old
  | Some v => to_datetime v
  end.

(** The row after the flush, or [None] when the statement raises.
    Attributes that are not columns of the table are not flushed. *)
Definition flush_update (t : Transaction.t) (attrs : gmap string json)
    : option Transaction.t :=
  id ← flush_integer (Transaction.id t) (attrs !! "id");
  user_id ← flush_integer (Transaction.user_id t) (attrs !! "user_id");
  amount ← flush_integer (Transaction.amount t) (attrs !! "amount");
  type ← flush_string (Transaction.type t) (attrs !! "type");
  category ← flush_string (Transaction.category t) (attrs !! "category");
  date ← flush_datetime (Transaction.date t) (attrs !! "date");
  note ← flush_string (Transaction.note t) (attrs !! "note");
  Some (Transaction.mk id user_id amount type category date note).

(** [UPDATE transaction SET ... WHERE id = key] *)
Definition update_row (key : Z) (t' : Transaction.t) (rows : list Transaction.t)
    : list Transaction.t :=
  (fun r => if bool_decide (Transaction.id r = key) then t' else r) <$> rows.

(** [DELETE FROM transaction WHERE id = key] *)
Definition delete_row (key : Z) (rows : list Transaction.t) : list Transaction.t :=
  filter (fun r => Transaction.id r ≠ key) rows.

(** *** Transactions *)

Definition AddTransaction_post (w : world) (s : db) (a : authorization)
    (data : json) : response * db :=
  match parse_request (AddTransaction data) with
  | Some r => (r, s)
  | None =>
      match jwt_required w s a with
      | inl r => (r, s)
      | inr token =>
          let errs := Schema_validate E TransactionSchema (PartialOnly []) data in
          if bool_decide (errs ≠ ∅) then (validation_failed errs, s)
          else
            match user_by_email s (sub token), data with
            | Some user, JObj m =>
                match insert_transaction w s (User.user_id user) m with
                | Some new_transaction =>
                    (mk_response 201 (transaction_schema_dump new_transaction),
                     mk_db (users s) (token_blocklist s)
                           (transactions s ++ [new_transaction]))
                | None => (Api_handle_error, s)
                end
            | _, _ => (Api_handle_error, s)
            end
      end
  end.

Definition not_found_for_user : response :=
  mk_response 404
    (obj [("error", JStr "transaction not found for this id or for current user")]).

Definition EditTransaction_patch (w : world) (s : db) (a : authorization)
    (transaction_id : Z) (data : json) : response * db :=
  match parse_request (EditTransaction transaction_id data) with
  | Some r => (r, s)
  | None =>
      match jwt_required w s a with
      | inl r => (r, s)
      | inr token =>
          let errs := Schema_validate E TransactionSchema PartialAll data in
          if bool_decide (errs ≠ ∅) then (validation_failed errs, s)
          else
            match user_by_email s (sub token) with
            | None => (Api_handle_error, s)
            | Some user =>
                match transaction_by_id_and_owner s transaction_id (User.user_id user) with
                | None => (not_found_for_user, s)
                | Some transaction =>
                    match data with
                    | JObj m =>
                        let attrs :=
                          foldl (fun attrs kv => setattr attrs kv.1 kv.2) ∅
                                (map_to_list m) in
                        match flush_update transaction attrs with
                        | Some t' =>
                            (mk_response 200 (transaction_schema_dump t'),
                             mk_db (users s) (token_blocklist s)
                                   (update_row (Transaction.id transaction) t'
                                               (transactions s)))
                        | None => (Api_handle_error, s)
                        end
                    | _ => (Api_handle_error, s)
                    end
                end
            end
      end
  end.

Definition DeleteTransaction_delete (w : world) (s : db) (a : authorization)
    (transaction_id : Z) : response * db :=
  match jwt_required w s a with
  | inl r => (r, s)
  | inr token =>
      match user_by_email s (sub token) with
      | None => (Api_handle_error, s)
      | Some user =>
          match transaction_by_id_and_owner s transaction_id (User.user_id user) with
          | None => (not_found_for_user, s)
          | Some transaction =>
              (mk_response 200
                 (obj [("message", JStr "transaction deleted successfully")]),
               mk_db (users s) (token_blocklist s)
                     (delete_row (Transaction.id transaction) (transactions s)))
          end
      end
  end.

(** *** Listing *)

(** [request.args.get(key, default, type = int)]: the default when the
    argument is absent or [int] raises on it. *)
Definition args_get_int (args : gmap string string) (key : string)
    (default : Z) : Z :=
  match args !! key with
  | Some v =>
      match py_int_of_str E v with
      | Some n => n
      | None => default
      end
  | None => default
  end.

(** [if arg: query = query.where(...)]: an absent or empty argument adds
    no condition. *)
Definition where_arg (arg : option string)
    (cond : string -> Transaction.t -> bool) (rows : list Transaction.t)
    : list Transaction.t :=
  match arg with
  | Some v => if bool_decide (v = "") then rows
              else filter (fun t => cond v t = true) rows
  | None => rows
  end.

(** The rows the query of [GetTransactions.get] selects. *)
Definition transactions_query (s : db) (user_id : Z) (args : gmap string string)
    : list Transaction.t :=
  where_arg (args !! "end_date") (fun v t => date_le E (Transaction.date t) v)
    (where_arg (args !! "start_date") (fun v t => date_ge E (Transaction.date t) v)
       (where_arg (args !! "category")
                  (fun v t => bool_decide (Transaction.category t = v))
          (where_arg (args !! "type")
                     (fun v t => bool_decide (Transaction.type t = v))
             (filter (fun t => Transaction.user_id t = user_id)
                     (transactions s))))).

(** [db.paginate(query, page = page, per_page = per_page,
    error_out = False)]: a page below 1 becomes 1 and a size below 1
    becomes 20; the items are those at offset [(page - 1) * per_page],
    at most [per_page] of them; [pages] is [ceil(total / per_page)], and
    0 for an empty result. *)
Definition paginate (rows : list Transaction.t) (page per_page : Z)
    : Pagination.t :=
  let per_page := match max_per_page E with
                  | Some m => Z.min per_page m
                  | None => per_page
                  end in
  let page := if page <? 1 then 1 else page in
  let per_page := if per_page <? 1 then 20 else per_page in
  let total := Z.of_nat (length rows) in
  Pagination.mk
    (take (Z.to_nat per_page) (drop (Z.to_nat ((page - 1) * per_page)) rows))
    total page
    (if total =? 0 then 0 else (total + per_page - 1) `div` per_page)
    per_page.

Definition GetTransactions_get (w : world) (s : db) (a : authorization)
    (args : gmap string string) : response * db :=
  match parse_request (GetTransactions args) with
  | Some r => (r, s)
  | None =>
      match jwt_required w s a with
      | inl r => (r, s)
      | inr token =>
          match user_by_email s (sub token) with
          | None => (Api_handle_error, s)
          | Some user =>
              let page := args_get_int args "page" 1 in
              let per_page := args_get_int args "per_page" 4 in
              let pagination :=
                paginate (transactions_query s (User.user_id user) args)
                         page per_page in
              (mk_response 200
                 (obj [ ("transactions",
                         JArr (transaction_schema_dump <$> Pagination.items pagination));
                        ("total", JInt (Pagination.total pagination));
                        ("page", JInt (Pagination.page pagination));
                        ("pages", JInt (Pagination.pages pagination));
                        ("per_page", JInt (Pagination.per_page pagination)) ]),
               s)
          end
      end
  end.

(** *** Reports *)

(** [func.sum(...)] then [.scalar()]: [NULL] over no rows. *)
Definition func_sum (xs : list Z) : option Z :=
  match xs with
  | [] => None
  | _ => Some (foldr Z.add 0 xs)
  end.

(** [x or 0] *)
Definition or_0 (x : option Z) : Z :=
  match x with
  | Some n => if n =? 0 then 0 else n
  | None => 0
  end.

(** The rows of one user and one calendar month. *)
Definition in_month (user_id year month : Z) (t : Transaction.t) : Prop :=
  Transaction.user_id t = user_id
  ∧ dt_year (Transaction.date t) = year
  ∧ dt_month (Transaction.date t) = month.

Definition sum_of_type (s : db) (user_id year month : Z) (type : string) : Z :=
  or_0 (func_sum
          (Transaction.amount <$>
             filter (fun t => Transaction.user_id t = user_id
                              ∧ Transaction.type t = type
                              ∧ dt_year (Transaction.date t) = year
                              ∧ dt_month (Transaction.date t) = month)
                    (transactions s))).

Definition MonthlySummary_get (w : world) (s : db) (a : authorization)
    (args : gmap string string) : response * db :=
  match parse_request (MonthlySummary args) with
  | Some r => (r, s)
  | None =>
      match jwt_required w s a with
      | inl r => (r, s)
      | inr token =>
          match user_by_email s (sub token) with
          | None => (Api_handle_error, s)
          | Some user =>
              let year := args_get_int args "year" (dt_year (today w)) in
              let month := args_get_int args "month" (dt_month (today w)) in
              let income := sum_of_type s (User.user_id user) year month "income" in
              let expense := sum_of_type s (User.user_id user) year month "expense" in
              let balance := income - expense in
              (mk_response 200
                 (obj [ ("monthly summary", JStr (pretty year +:+ " - " +:+ pretty month));
                        ("income", JInt income);
                        ("expense", JInt expense);
                        ("balance", JInt balance) ]),
               s)
          end
      end
  end.

(** [select(category, func.sum(amount)) ... group_by(category)] then
    [.all()]: one row per category with the sum of its amounts, in the order
    the database returns the groups. *)
Definition group_by_category (rows : list Transaction.t) : list (string * Z) :=
  order_groups E
    ((fun c => (c, foldr Z.add 0
                     (Transaction.amount <$>
                        filter (fun t => Transaction.category t = c) rows)))
       <$> remove_dups (Transaction.category <$> rows)).

Definition CategoryBreakdown_get (w : world) (s : db) (a : authorization)
    (args : gmap string string) : response * db :=
  match parse_request (CategoryBreakdown args) with
  | Some r => (r, s)
  | None =>
      match jwt_required w s a with
      | inl r => (r, s)
      | inr token =>
          match user_by_email s (sub token) with
          | None => (Api_handle_error, s)
          | Some user =>
              let year := args_get_int args "year" (dt_year (today w)) in
              let month := args_get_int args "month" (dt_month (today w)) in
              let result :=
                group_by_category
                  (filter (in_month (User.user_id user) year month) (transactions s)) in
              let breakdown :=
                (fun r => obj [("category", JStr r.1); ("total", JInt r.2)]) <$> result in
              (mk_response 200
                 (obj [ ("month", JStr (pretty year +:+ " - " +:+ pretty month));
                        ("category breakdown", JArr breakdown) ]),
               s)
          end
      end
  end.

(** *** Route bindings *)

(** The routes behind [jwt_required]. *)
Definition protected (r : request) : bool :=
  match r with
  | Register _ | Login _ => false
  | _ => true
  end.

Definition handle (w : world) (s : db) (a : authorization) (r : request)
    : response * db :=
  match r with
  | Register data => Register_post w s data
  | Login data => Login_post w s data
  | Logout => Logout_post w s a
  | AddTransaction data => AddTransaction_post w s a data
  | GetTransactions args => GetTransactions_get w s a args
  | EditTransaction transaction_id data =>
      EditTransaction_patch w s a transaction_id data
  | DeleteTransaction transaction_id =>
      DeleteTransaction_delete w s a transaction_id
  | MonthlySummary args => MonthlySummary_get w s a args
  | CategoryBreakdown args => CategoryBreakdown_get w s a args
  end.

(** The database after a sequence of requests, each with its own world
    inputs and credentials. *)
Definition run (s : db) (trace : list (world * authorization * request)) : db :=
  foldl (fun s war => (handle war.1.1 s war.1.2 war.2).2) s trace.

End Service.

(** ** A concrete environment

    Small stand-ins for the libraries, used to run the service on concrete
    requests: decimal integers, [YYYY-MM-DD] and [YYYY-MM-DDTHH:MM:SS]
    dates, a driver that reads the strings the schema accepts, groups
    returned in the order of their keys, the [date] format checked by the
    schema validator, and no cap on the page size. *)

Module Demo.

Definition digit (c : Ascii.ascii) : option Z :=
  let n := Z.of_N (Ascii.N_of_ascii c) - 48 in
  if (0 <=? n) && (n <=? 9) then Some n else None.

Fixpoint digits (acc : Z) (s : string) : option Z :=
  match s with
  | EmptyString => Some acc
  | String c s' => d ← digit c; digits (10 * acc + d) s'
  end.

Definition int_of_str (s : string) : option Z :=
  match s with
  | EmptyString => None
  | String c s' =>
      if bool_decide (c = Ascii.ascii_of_nat 45) && negb (bool_decide (s' = ""))
      then Z.opp <$> digits 0 s' else digits 0 s
  end.

(** [n] decimal digits of [s] from position [i]. *)
Definition num (s : string) (i n : nat) : option Z :=
  let part := String.substring i n s in
  if bool_decide (String.length part = n) then digits 0 part else None.

Definition sep (s : string) (i : nat) (c : string) : option unit :=
  if bool_decide (String.substring i 1 s = c) then Some () else None.

Definition iso_date (s : string) : option (Z * Z * Z) :=
  y ← num s 0 4; _ ← sep s 4 "-"; m ← num s 5 2; _ ← sep s 7 "-"; d ← num s 8 2;
  if (1 <=? m) && (m <=? 12) && (1 <=? d) && (d <=? 31)
  then Some (y, m, d) else None.

Definition from_iso (s : string) : option datetime :=
  '(y, m, d) ← iso_date s;
  if bool_decide (String.length s = 10%nat) then Some (mk_datetime y m d 0 0 0 0)
  else if bool_decide (String.length s = 19%nat) then
    _ ← sep s 10 "T"; hh ← num s 11 2; _ ← sep s 13 ":"; mm ← num s 14 2;
    _ ← sep s 16 ":"; ss ← num s 17 2;
    if (hh <=? 23) && (mm <=? 59) && (ss <=? 59)
    then Some (mk_datetime y m d hh mm ss 0) else None
  else None.

Definition pad2 (n : Z) : string :=
  if n <? 10 then "0" +:+ pretty n else pretty n.

Definition pad4 (n : Z) : string :=
  if n <? 10 then "000" +:+ pretty n
  else if n <? 100 then "00" +:+ pretty n
  else if n <? 1000 then "0" +:+ pretty n
  else pretty n.

Definition iso (d : datetime) : string :=
  pad4 (dt_year d) +:+ "-" +:+ pad2 (dt_month d) +:+ "-" +:+ pad2 (dt_day d)
  +:+ "T" +:+ pad2 (dt_hour d) +:+ ":" +:+ pad2 (dt_minute d) +:+ ":"
  +:+ pad2 (dt_second d).

(** Seconds-resolution order on dates, through a mixed-radix number. *)
Definition stamp (d : datetime) : Z :=
  ((((dt_year d * 13 + dt_month d) * 32 + dt_day d) * 24 + dt_hour d) * 60
   + dt_minute d) * 60 + dt_second d.

(** The [date] format: [YYYY-MM-DD]. *)
Definition is_date (s : string) : bool :=
  bool_decide (String.length s = 10%nat) && bool_decide (is_Some (iso_date s)).

(** Groups in the order of their keys, compared byte by byte. *)
Definition key_le (g1 g2 : string * Z) : Prop := String.leb g1.1 g2.1 = true.

#[global] Instance key_le_dec (g1 g2 : string * Z) : Decision (key_le g1 g2) :=
  decide (String.leb g1.1 g2.1 = true).

Definition sort_groups (groups : list (string * Z)) : list (string * Z) :=
  merge_sort key_le groups.

Definition env : Env := {|
  py_int_of_str := int_of_str;
  from_iso_datetime := from_iso;
  isoformat := iso;
  email_ok := fun s => bool_decide (is_Some (String.index 0 "@" s));
  generate_password_hash := fun password salt => salt +:+ "$" +:+ password;
  check_password_hash := fun pwhash password =>
    match String.index 0 "$" pwhash with
    | Some i =>
        bool_decide
          (String.substring (S i) (String.length pwhash) pwhash = password)
    | None => false
    end;
  encode_token := fun t => sub t +:+ "." +:+ jti t +:+ "." +:+ pretty (exp t);
  bind_integer := fun v =>
    match v with
    | JStr s => int_of_str s
    | JFloat f => if float_is_integer f then int_of_float f else None
    | _ => None
    end;
  bind_datetime := from_iso;
  date_ge := fun d s => match from_iso s with
                        | Some d' => stamp d' <=? stamp d
                        | None => false
                        end;
  date_le := fun d s => match from_iso s with
                        | Some d' => stamp d <=? stamp d'
                        | None => false
                        end;
  max_per_page := None;
  order_groups := sort_groups;
  format_checker := fun format s =>
    if bool_decide (format = "date") then is_date s else true;
  int_error := fun s => "invalid literal for int() with base 10: '" +:+ s +:+ "'";
  schema_error := fun _ _ => JStr "the request does not match its declared schema"
|}.

(** The same with a database whose [DateTime] type takes [datetime] and
    [date] objects only and raises on a [str], as SQLite's does. *)
Definition sqlite : Env := {|
  py_int_of_str := py_int_of_str env;
  from_iso_datetime := from_iso_datetime env;
  isoformat := isoformat env;
  email_ok := email_ok env;
  generate_password_hash := generate_password_hash env;
  check_password_hash := check_password_hash env;
  encode_token := encode_token env;
  bind_integer := bind_integer env;
  bind_datetime := fun _ => None;
  date_ge := date_ge env;
  date_le := date_le env;
  max_per_page := max_per_page env;
  order_groups := order_groups env;
  format_checker := format_checker env;
  int_error := int_error env;
  schema_error := schema_error env
|}.

Definition alice : User.t :=
  User.mk 1 "Alice" "alice@example.com" "s1$secret123"
          (mk_datetime 2025 9 1 8 30 0 0).

Definition bob : User.t :=
  User.mk 2 "Bob" "bob@example.com" "s2$hunter2"
          (mk_datetime 2025 9 2 9 0 0 0).

Definition salary : Transaction.t :=
  Transaction.mk 1 1 20000 "income" "salary" (mk_datetime 2025 9 1 0 0 0 0)
                 "monthly salary".

Definition rent : Transaction.t :=
  Transaction.mk 2 1 7000 "expense" "rent" (mk_datetime 2025 9 3 0 0 0 0) "NA".

Definition bobs : Transaction.t :=
  Transaction.mk 3 2 50 "expense" "coffee" (mk_datetime 2025 9 4 0 0 0 0) "NA".

Definition store : db := mk_db [alice; bob] [] [salary; rent; bobs].

Definition w0 : world :=
  mk_world 1000 (mk_datetime 2025 9 5 0 0 0 0) (mk_datetime 2025 9 5 10 0 0 0)
           "s3" "jti-1".

Definition w1 : world :=
  mk_world 1500 (mk_datetime 2025 9 5 0 0 0 0) (mk_datetime 2025 9 5 10 8 20 0)
           "s4" "jti-2".

Definition w2 : world :=
  mk_world 2000 (mk_datetime 2025 9 5 0 0 0 0) (mk_datetime 2025 9 5 10 16 40 0)
           "s5" "jti-3".

(** The token a login of Alice at [w0] issues. *)
Definition token : jwt := create_access_token w0 "alice@example.com".

End Demo.

(** ** Reference definitions

    What the specification says a result is, to compare with what the
    service computes. *)


(** The integer a JSON value stands for under [fields.Int], which is not
    strict: an [int] itself, a finite float truncated, a [str] read by
    [int]. *)
Definition integer_value (E : Env) (v : json) : option Z :=
  match v with
  | JInt n => Some n
  | JFloat f => int_of_float f
  | JStr s => py_int_of_str E s
  | _ => None
  end.

(** What [TransactionSchema] asks of the fields that are present: no key
    but the five loadable ones, [amount] an integer of at least 1, [type]
    one of the two choices, [category] and [note] strings, [date] a string
    the ISO reader takes. *)
Definition transaction_fields_ok (E : Env) (m : gmap string json) : Prop :=
  (∀ k, is_Some (m !! k) → k ∈ ["amount"; "type"; "category"; "date"; "note"])
  ∧ (∀ v, m !! "amount" = Some v → ∃ n, integer_value E v = Some n ∧ 1 ≤ n)
  ∧ (∀ v, m !! "type" = Some v → v = JStr "income" ∨ v = JStr "expense")
  ∧ (∀ v, m !! "category" = Some v → ∃ c, v = JStr c)
  ∧ (∀ v, m !! "date" = Some v →
          ∃ d x, v = JStr d ∧ d ≠ "" ∧ from_iso_datetime E d = Some x)
  ∧ (∀ v, m !! "note" = Some v → ∃ n, v = JStr n).

(** The fields [TransactionSchema] requires. *)
Definition transaction_required (m : gmap string json) : Prop :=
  is_Some (m !! "amount") ∧ is_Some (m !! "type") ∧ is_Some (m !! "category").

(** The rules the specification names for [add_transaction]: the required
    fields present, [amount] an integer above 0, [type] income or
    expense. *)
Definition meets_stated_rules (data : json) : Prop :=
  ∃ m n ty c,
    data = JObj m
    ∧ m !! "amount" = Some (JInt n) ∧ 0 < n
    ∧ m !! "type" = Some (JStr ty) ∧ (ty = "income" ∨ ty = "expense")
    ∧ m !! "category" = Some (JStr c).

(** When a required field may be absent. *)
Definition may_miss (p : partial) (name : string) (v : option json) : Prop :=
  v = None → is_partial p name = true.


(** What an optional argument asks of a row: nothing when it is absent. *)
Definition asks (arg : option string) (P : string → Prop) : Prop :=
  match arg with
  | Some v => P v
  | None => True
  end.

#[global] Instance asks_dec (arg : option string) (P : string → Prop)
    `{!∀ v, Decision (P v)} : Decision (asks arg P) :=
  match arg with
  | Some v => decide (P v)
  | None => left I
  end.

(** The transactions a listing is about, as the specification words it:
    those the user owns, with the [type] and the [category] asked for and
    the date between [start_date] and [end_date], both included; a
    [category] or a date given as the empty string asks for nothing. *)
Definition selected (E : Env) (user_id : Z) (args : gmap string string)
    (t : Transaction.t) : Prop :=
  Transaction.user_id t = user_id
  ∧ asks (args !! "type") (λ v, Transaction.type t = v)
  ∧ asks (args !! "category") (λ v, v ≠ "" → Transaction.category t = v)
  ∧ asks (args !! "start_date")
         (λ v, v ≠ "" → date_ge E (Transaction.date t) v = true)
  ∧ asks (args !! "end_date")
         (λ v, v ≠ "" → date_le E (Transaction.date t) v = true).

#[global] Instance selected_dec (E : Env) (user_id : Z)
    (args : gmap string string) (t : Transaction.t)
    : Decision (selected E user_id args t).
Proof. unfold selected. apply _. Defined.

(** A JSON integer: an [int], or a float without a fractional part. *)
Definition json_integer (v : json) : Prop :=
  (∃ n, v = JInt n) ∨ (∃ f, v = JFloat f ∧ float_is_integer f = true).

(** What the declared body of an add asks beyond [TransactionSchema]:
    [amount] a JSON integer, [date] in the [date] format where formats are
    checked. *)
Definition add_declared_ok (E : Env) (m : gmap string json) : Prop :=
  (∀ v, m !! "amount" = Some v → json_integer v)
  ∧ (∀ d, m !! "date" = Some (JStr d) → format_checker E "date" d = true).


(** ** Well-formed databases

    What the table declarations promise: primary keys and the [unique]
    e-mail column hold no value twice, a transaction's [user_id] is the key
    of a user, and what the schema lets through is what is stored. *)

Definition keys_unique (s : db) : Prop :=
  NoDup (User.user_id <$> users s)
  ∧ NoDup (User.email <$> users s)
  ∧ NoDup (TokenBlocklist.id <$> token_blocklist s)
  ∧ NoDup (Transaction.id <$> transactions s).

Definition owners_exist (s : db) : Prop :=
  ∀ t, t ∈ transactions s →
       ∃ u, u ∈ users s ∧ User.user_id u = Transaction.user_id t.

Definition types_valid (s : db) : Prop :=
  ∀ t, t ∈ transactions s →
       Transaction.type t = "income" ∨ Transaction.type t = "expense".

Definition amounts_positive (s : db) : Prop :=
  ∀ t, t ∈ transactions s → 1 ≤ Transaction.amount t.

(** A driver that stores, for a value that is not an [int], the integer
    the schema read from it. *)
Definition driver_reads_integers (E : Env) : Prop :=
  ∀ v n, bind_integer E v = Some n → integer_value E v = Some n.

(** What [UserSchema] asks of a register body: no key but [name], [email]
    and [password], each of them a string, the e-mail well formed. *)
Definition user_fields_ok (E : Env) (m : gmap string json) : Prop :=
  (∀ k, is_Some (m !! k) → k ∈ ["name"; "email"; "password"])
  ∧ (∃ name, m !! "name" = Some (JStr name))
  ∧ (∃ email, m !! "email" = Some (JStr email) ∧ email_ok E email = true)
  ∧ (∃ password, m !! "password" = Some (JStr password)).

(** The responses that report success. *)
Definition succeeded (r : response) : Prop := status r = 200 ∨ status r = 201.

(** A sequence of requests on the concrete store: a registration, an
    addition, an edit, a deletion and a logout. *)
Definition demo_trace : list (world * authorization * request) :=
  [ (Demo.w0, NoAuthorization,
     Register (obj [("name", JStr "Carol"); ("email", JStr "carol@example.com");
                    ("password", JStr "pass1234")]));
    (Demo.w1, Bearer Demo.token,
     AddTransaction (obj [("amount", JInt 120); ("type", JStr "expense");
                          ("category", JStr "books")]));
    (Demo.w1, Bearer Demo.token,
     EditTransaction 1 (obj [("amount", JInt 21000)]));
    (Demo.w1, Bearer Demo.token, DeleteTransaction 2);
    (Demo.w2, Bearer Demo.token, Logout) ].

(** What [UserSchema] asks of a login body, where [name] may be left out:
    no key but the three, [email] a well-formed string, [password] a string,
    and [name] a string if it is there. *)
Definition login_fields_ok (E : Env) (m : gmap string json) : Prop :=
  (∀ k, is_Some (m !! k) → k ∈ ["name"; "email"; "password"])
  ∧ (∀ v, m !! "name" = Some v → ∃ name, v = JStr name)
  ∧ (∃ email, m !! "email" = Some (JStr email) ∧ email_ok E email = true)
  ∧ (∃ password, m !! "password" = Some (JStr password)).


(** The concrete environment with a password hash whose check accepts what
    it hashed, whatever the salt: the password, a separator and the salt,
    checked by its beginning. *)
Definition prefix_hash_env : Env := {|
  py_int_of_str := py_int_of_str Demo.env;
  from_iso_datetime := from_iso_datetime Demo.env;
  isoformat := isoformat Demo.env;
  email_ok := email_ok Demo.env;
  generate_password_hash := fun password salt => password +:+ "$" +:+ salt;
  check_password_hash := fun pwhash password =>
    String.prefix (password +:+ "$") pwhash;
  encode_token := encode_token Demo.env;
  bind_integer := bind_integer Demo.env;
  bind_datetime := bind_datetime Demo.env;
  date_ge := date_ge Demo.env;
  date_le := date_le Demo.env;
  max_per_page := max_per_page Demo.env;
  order_groups := order_groups Demo.env;
  format_checker := format_checker Demo.env;
  int_error := int_error Demo.env;
  schema_error := schema_error Demo.env
|}.

(** * Properties *)

(** ** The declared parameters *)

Section Hook.
Context (E : Env).

(** The hook answers with 400 or not at all. *)
Lemma parse_json_status sch data r :
  parse_json E sch data = Some r → status r = 400.
Proof. unfold parse_json. case_match; [done |]. by intros [= <-]. Qed.

Lemma parse_query_status sch args r :
  parse_query E sch args = Some r → status r = 400.
Proof.
  unfold parse_query. destruct (parse_args E _ args) as [[name v]|namespace].
  - by intros [= <-].
  - case_match; [done |]. by intros [= <-].
Qed.

Lemma parse_request_status req r :
  parse_request E req = Some r → status r = 400.
Proof.
  destruct req; simpl; try done;
    first [apply parse_json_status | apply parse_query_status].
Qed.

(** A dictionary is validated as it is: the only one that is false in
    Python is the empty one. *)
Lemma parse_json_dict sch (m : gmap string json) :
  parse_json E sch (JObj m)
  = if jsonschema.is_valid (format_checker E) sch (JObj m) then None
    else Some (mk_response 400 (schema_error E sch (JObj m))).
Proof.
  unfold parse_json. simpl. destruct (map_to_list m) eqn:Hm; [| done].
  apply map_to_list_empty_iff in Hm. by subst m.
Qed.

(** The checks of one property that is present. *)
Lemma string_property_valid (v : json) :
  jsonschema.property_is_valid (format_checker E) string_property v = true
  ↔ ∃ x, v = JStr x.
Proof.
  unfold jsonschema.property_is_valid. simpl.
  destruct v; simpl; split; try done; eauto; by intros [x ?].
Qed.

Lemma integer_property_valid (v : json) :
  jsonschema.property_is_valid (format_checker E) integer_property v = true
  ↔ json_integer v.
Proof.
  unfold jsonschema.property_is_valid, json_integer. simpl.
  destruct v as [|b|n|f|x|l|m]; simpl; rewrite ?andb_true_r.
  1,2,5,6,7: split; [done | intros [[? ?] | (? & ? & ?)]; done].
  - split; [eauto | done].
  - split; [intros Hf; right; by exists f |].
    by intros [[? ?] | (f' & [= <-] & Hf)].
Qed.

Lemma type_property_valid (v : json) :
  jsonschema.property_is_valid (format_checker E)
    (jsonschema.mk_property jsonschema.TString (Some ["income"; "expense"]) None) v
  = true
  ↔ v = JStr "income" ∨ v = JStr "expense".
Proof.
  unfold jsonschema.property_is_valid. simpl.
  destruct v as [|b|n|f|x|l|m]; simpl; split; try done;
    try (by intros [? | ?]).
  - rewrite andb_true_r. intros Hx. apply bool_decide_eq_true in Hx.
    set_unfold. naive_solver.
  - intros [[= ->] | [= ->]]; done.
Qed.

Lemma date_property_valid (v : json) :
  jsonschema.property_is_valid (format_checker E)
    (jsonschema.mk_property jsonschema.TString None (Some "date")) v = true
  ↔ ∃ d, v = JStr d ∧ format_checker E "date" d = true.
Proof.
  unfold jsonschema.property_is_valid. simpl.
  destruct v as [|b|n|f|x|l|m]; simpl; split; try done;
    try (by intros (? & ? & ?)).
  - intros Hx. by exists x.
  - by intros (d & [= <-] & Hd).
Qed.

End Hook.

(** ** Token check and blocklist *)

Section Tokens.
Context (E : Env).

(** What a passed token check says about the token. *)
Lemma jwt_required_inr w s a t :
  jwt_required w s a = inr t →
  a = Bearer t ∧ nbf t ≤ now w ∧ now w < exp t
  ∧ check_if_token_revoked s t = false.
Proof.
  unfold jwt_required, verify_jwt_in_request. intros H.
  destruct a as [| |t']; try discriminate.
  destruct (now w <? nbf t') eqn:Hn; try discriminate.
  destruct (exp t' <=? now w) eqn:He; try discriminate.
  destruct (check_if_token_revoked s t') eqn:Hr; try discriminate.
  injection H as ->. split; [done |]. split; [lia |]. split; [lia | done].
Qed.

(** Whatever the check refuses, the answer is that of Flask-RESTful to an
    exception. *)
Lemma jwt_required_inl w s a r :
  jwt_required w s a = inl r → r = Api_handle_error.
Proof. unfold jwt_required. case_match; congruence. Qed.

(** A token with the right window that is not on the blocklist passes. *)
Lemma jwt_required_passes w s t :
  nbf t ≤ now w → now w < exp t → check_if_token_revoked s t = false →
  jwt_required w s (Bearer t) = inr t.
Proof.
  intros Hn He Hr. unfold jwt_required, verify_jwt_in_request. rewrite Hr.
  destruct (now w <? nbf t) eqn:H1; [lia |].
  destruct (exp t <=? now w) eqn:H2; [lia | done].
Qed.

(** A token past its expiry or on the blocklist is refused. *)
Lemma jwt_required_refused w s t :
  exp t ≤ now w ∨ check_if_token_revoked s t = true →
  jwt_required w s (Bearer t) = inl Api_handle_error.
Proof.
  intros H. unfold jwt_required, verify_jwt_in_request.
  destruct (now w <? nbf t) eqn:Hlt; [done |].
  destruct (exp t <=? now w) eqn:He; [done |].
  destruct H as [H | ->]; [lia | done].
Qed.

(** Every route behind [jwt_required] leaves the database alone when the
    guard refuses, and answers with the guard's response unless the hook
    has answered before. *)
Lemma protected_refused w s a req r :
  protected req = true →
  jwt_required w s a = inl r →
  handle E w s a req
  = (match parse_request E req with Some r' => r' | None => r end, s).
Proof.
  intros Hp Hr.
  destruct req; try discriminate; cbn [handle];
    [ unfold Logout_post | unfold AddTransaction_post
    | unfold GetTransactions_get | unfold EditTransaction_patch
    | unfold DeleteTransaction_delete | unfold MonthlySummary_get
    | unfold CategoryBreakdown_get ];
    try (destruct (parse_request E _) as [r'|]; [done |]);
    cbn [parse_request]; by rewrite Hr.
Qed.

(** No request removes a blocklist row. *)
Lemma handle_blocklist w s a req :
  ∃ l, token_blocklist (handle E w s a req).2 = token_blocklist s ++ l.
Proof.
  destruct req; simpl;
    [ unfold Register_post | unfold Login_post | unfold Logout_post
    | unfold AddTransaction_post | unfold GetTransactions_get
    | unfold EditTransaction_patch | unfold DeleteTransaction_delete
    | unfold MonthlySummary_get | unfold CategoryBreakdown_get ];
    repeat case_match; simpl;
    first [ by (exists []; rewrite app_nil_r) | eexists; reflexivity ].
Qed.

Lemma run_blocklist trace s :
  ∃ l, token_blocklist (run E s trace) = token_blocklist s ++ l.
Proof.
  revert s. induction trace as [|[[w a] req] trace IH]; intros s.
  - exists []. by rewrite app_nil_r.
  - simpl. destruct (IH (handle E w s a req).2) as [l2 H2].
    destruct (handle_blocklist w s a req) as [l1 H1].
    exists (l1 ++ l2). unfold run in *. simpl. rewrite H2, H1. by rewrite app_assoc.
Qed.

(** A revoked token stays revoked while rows are only added. *)
Lemma revoked_mono s s' l t :
  token_blocklist s' = token_blocklist s ++ l →
  check_if_token_revoked s t = true →
  check_if_token_revoked s' t = true.
Proof.
  unfold check_if_token_revoked. intros -> H.
  apply bool_decide_eq_true in H. apply bool_decide_eq_true.
  apply Exists_app. by left.
Qed.

(** What a call of logout leaves behind: the token was already expired,
    or it is on the blocklist now. *)
Lemma logout_outcome w s t :
  nbf t ≤ now w →
  exp t ≤ now w
  ∨ check_if_token_revoked (Logout_post w s (Bearer t)).2 t = true.
Proof.
  intros Hn. unfold Logout_post, jwt_required, verify_jwt_in_request.
  destruct (now w <? nbf t) eqn:Hlt; [lia |].
  destruct (exp t <=? now w) eqn:He; [left; lia |].
  right. destruct (check_if_token_revoked s t) eqn:Hr; simpl; [done |].
  unfold check_if_token_revoked. simpl. apply bool_decide_eq_true.
  apply Exists_app. right. by constructor.
Qed.

End Tokens.

(** C1, what the code does.  Once logout has been called with a token that
    login issued, every later request to a protected route (adding, listing,
    editing, deleting, the reports and logout itself) that presents this
    token is refused and leaves the database as it was, whatever requests
    were served in between.  The refusal is not the 401 the routes document:
    the exception of the token check is answered by Flask-RESTful with 500,
    unless the request already fails its declared parameters and is answered
    with 400. *)
Theorem revoked_token_never_authenticates (E : Env)
    (w_login : world) (identity : string)
    (w_logout : world) (s : db)
    (trace : list (world * authorization * request))
    (w_later : world) (req : request) :
  let t := create_access_token w_login identity in
  let s' := run E (Logout_post w_logout s (Bearer t)).2 trace in
  now w_login ≤ now w_logout →
  now w_logout ≤ now w_later →
  protected req = true →
  let r := handle E w_later s' (Bearer t) req in
  r.2 = s'
  ∧ (parse_request E req = None → r.1 = Api_handle_error)
  ∧ (status r.1 = 500 ∨ status r.1 = 400)
  ∧ status r.1 ≠ 401.
Proof.
  intros t s' H1 H2 Hp r.
  assert (Hn : nbf t ≤ now w_logout) by (simpl; lia).
  assert (Hr : jwt_required w_later s' (Bearer t) = inl Api_handle_error).
  { apply jwt_required_refused.
    destruct (logout_outcome w_logout s t Hn) as [He | Hrev]; [left; lia |].
    right. subst s'.
    destruct (run_blocklist E trace (Logout_post w_logout s (Bearer t)).2)
      as [l Hl].
    by eapply revoked_mono. }
  subst r. rewrite (protected_refused E _ _ _ _ _ Hp Hr). simpl.
  split; [done |]. split; [by intros -> |].
  destruct (parse_request E req) as [r'|] eqn:Hq.
  - apply parse_request_status in Hq. rewrite Hq. split; [by right | done].
  - split; [by left | done].
Qed.

Lemma revoked_token_never_authenticates_witness :
  (handle Demo.env Demo.w2
     (run Demo.env (Logout_post Demo.w1 Demo.store (Bearer Demo.token)).2
        [(Demo.w1, Bearer Demo.token,
          AddTransaction (obj [("amount", JInt 3); ("type", JStr "income");
                               ("category", JStr "gift")]))])
     (Bearer Demo.token) (GetTransactions ∅)).1
  = mk_response 500 (obj [("message", JStr "Internal Server Error")]).
Proof.
  destruct (revoked_token_never_authenticates Demo.env Demo.w0
              "alice@example.com" Demo.w1 Demo.store
              [(Demo.w1, Bearer Demo.token,
                AddTransaction (obj [("amount", JInt 3); ("type", JStr "income");
                                     ("category", JStr "gift")]))]
              Demo.w2 (GetTransactions ∅))
    as (_ & H & _);
    [vm_compute; discriminate | vm_compute; discriminate | reflexivity |].
  apply H. reflexivity.
Defined.

(** C8, as the code has it.  The first logout with a token that passes the
    check answers 200 and adds one blocklist row with the token's [jti],
    changing nothing else; every later logout with the same token is
    refused, with the answer Flask-RESTful gives to the exception of the
    token check, and adds no row. *)
Theorem logout_succeeds_once (E : Env) (w : world) (s : db) (t : jwt)
    (trace : list (world * authorization * request)) (w' : world) :
  jwt_required w s (Bearer t) = inr t →
  let first := Logout_post w s (Bearer t) in
  let s' := run E first.2 trace in
  let again := Logout_post w' s' (Bearer t) in
  status first.1 = 200
  ∧ token_blocklist first.2
    = token_blocklist s
      ++ [TokenBlocklist.mk (fresh_id (TokenBlocklist.id <$> token_blocklist s))
                            (jti t)]
  ∧ users first.2 = users s
  ∧ transactions first.2 = transactions s
  ∧ again.1 = Api_handle_error
  ∧ status again.1 ≠ 200
  ∧ again.2 = s'.
Proof.
  intros Hok first s' again.
  assert (Hfirst : first = Logout_post w s (Bearer t)) by done.
  unfold Logout_post in Hfirst. rewrite Hok in Hfirst.
  split; [by rewrite Hfirst |]. split; [by rewrite Hfirst |].
  split; [by rewrite Hfirst |]. split; [by rewrite Hfirst |].
  assert (Hr : jwt_required w' s' (Bearer t) = inl Api_handle_error).
  { apply jwt_required_refused. right.
    destruct (run_blocklist E trace first.2) as [l Hl].
    eapply revoked_mono; [exact Hl |].
    rewrite Hfirst. unfold check_if_token_revoked. simpl.
    apply bool_decide_eq_true, Exists_app. right. by constructor. }
  subst again. unfold Logout_post. by rewrite Hr.
Qed.

Lemma logout_succeeds_once_witness :
  status (Logout_post Demo.w1 Demo.store (Bearer Demo.token)).1 = 200
  ∧ status (Logout_post Demo.w2
              (run Demo.env (Logout_post Demo.w1 Demo.store (Bearer Demo.token)).2
                   [(Demo.w1, NoAuthorization, GetTransactions ∅)])
              (Bearer Demo.token)).1 ≠ 200.
Proof.
  pose proof (logout_succeeds_once Demo.env Demo.w1 Demo.store Demo.token
                [(Demo.w1, NoAuthorization, GetTransactions ∅)] Demo.w2) as H.
  simpl in H.
  destruct H as (H1 & _ & _ & _ & _ & H2 & _); [reflexivity | by split].
Defined.

(** C8 as stated fails: the second logout with the same token is refused,
    and the blocklist keeps its single row. *)
Lemma repeated_logout_is_refused :
  let first := Logout_post Demo.w1 Demo.store (Bearer Demo.token) in
  let second := Logout_post Demo.w2 first.2 (Bearer Demo.token) in
  jwt_required Demo.w1 Demo.store (Bearer Demo.token) = inr Demo.token
  ∧ status first.1 = 200
  ∧ now Demo.w2 < exp Demo.token
  ∧ status second.1 = 500
  ∧ ¬ status second.1 = 200
  ∧ length (token_blocklist second.2) = 1%nat.
Proof. vm_compute. repeat split; discriminate. Qed.

(** ** Declared query parameters *)

Section Query.
Context (E : Env).

Lemma forallb_true_iff {A} (f : A → bool) (l : list A) :
  forallb f l = true ↔ ∀ x, x ∈ l → f x = true.
Proof.
  induction l as [|y l IH]; simpl.
  - split; [by intros _ x Hx%elem_of_nil | done].
  - rewrite andb_true_iff, IH. split.
    + intros [Hy Hl] x Hx. apply elem_of_cons in Hx as [-> | Hx]; auto.
    + intros H. split; [apply H; left | intros x Hx; apply H; by right].
Qed.








End Query.

(** ** Lookups scoped to the caller *)

Section Lookup.
Context (E : Env).

Lemma filter_nil_Forall {A} (P : A → Prop) `{!∀ x, Decision (P x)} (l : list A) :
  filter P l = [] ↔ ∀ x, x ∈ l → ¬ P x.
Proof.
  split.
  - intros Hnil x Hx HP. by eapply (filter_nil_not_elem_of P).
  - intros Hall. induction l as [|x l IH]; [done |].
    rewrite filter_cons_False by (apply Hall; left).
    apply IH. intros y Hy. apply Hall. by right.
Qed.


Lemma transaction_by_id_and_owner_Some s transaction_id user_id t :
  transaction_by_id_and_owner s transaction_id user_id = Some t →
  t ∈ transactions s ∧ Transaction.id t = transaction_id
  ∧ Transaction.user_id t = user_id.
Proof.
  unfold transaction_by_id_and_owner. intros H.
  apply head_Some in H as [l' H].
  assert (Hin : t ∈ filter
                  (λ t, Transaction.id t = transaction_id
                        ∧ Transaction.user_id t = user_id) (transactions s))
    by (rewrite H; left).
  apply list_elem_of_filter in Hin. tauto.
Qed.





End Lookup.



(** ** Monthly summary *)






(** ** Pagination *)

Section Paginate.
Context (E : Env).

Lemma paginate_per_page rows page per_page :
  1 ≤ Pagination.per_page (paginate E rows page per_page).
Proof.
  unfold paginate. simpl. destruct (max_per_page E); case_match; lia.
Qed.

Lemma paginate_total rows page per_page :
  Pagination.total (paginate E rows page per_page) = Z.of_nat (length rows).
Proof. done. Qed.

(** [pages] is the number of pages of size [per_page] that hold [total]
    items: the one [k] with [(k - 1) * per_page < total ≤ k * per_page]. *)
Lemma paginate_pages rows page per_page :
  let p := paginate E rows page per_page in
  (Pagination.pages p - 1) * Pagination.per_page p < Pagination.total p
  ∧ Pagination.total p ≤ Pagination.pages p * Pagination.per_page p.
Proof.
  intros p. pose proof (paginate_per_page rows page per_page) as Hpp.
  fold p in Hpp. subst p. unfold paginate in *. simpl in *.
  set (pp := if _ <? 1 then 20 else _) in *.
  set (total := Z.of_nat (length rows)).
  destruct (total =? 0) eqn:H0; [lia |].
  pose proof (Z.div_mod (total + pp - 1) pp ltac:(lia)) as Hdm.
  pose proof (Z.mod_pos_bound (total + pp - 1) pp ltac:(lia)) as Hmod.
  nia.
Qed.



End Paginate.

(** ** The query of a listing *)

Section ListingQuery.
Context (E : Env).

Lemma filter_all {A} (P : A → Prop) `{!∀ x, Decision (P x)} (l : list A) :
  (∀ x, x ∈ l → P x) → filter P l = l.
Proof.
  induction l as [|x l IH]; intros Hall; [done |].
  rewrite filter_cons_True by (apply Hall; left).
  f_equal. apply IH. intros y Hy. apply Hall. by right.
Qed.






End ListingQuery.



(** ** Validation *)

Section Validation.
Context (E : Env).

Lemma omap_nil_Forall {A B} (f : A → option B) (l : list A) :
  omap f l = [] ↔ Forall (λ x, f x = None) l.
Proof.
  induction l as [|x l IH]; simpl.
  - split; [constructor | done].
  - destruct (f x) eqn:Hx.
    + split; [done |]. intros H. inversion H; congruence.
    + rewrite IH. split; [by constructor | by inversion 1].
Qed.

Lemma list_to_map_empty {A} (l : list (string * A)) :
  list_to_map l =@{gmap string A} ∅ ↔ l = [].
Proof.
  split; [| by intros ->].
  destruct l as [|[k x] l]; [done |]. simpl. intros H.
  by apply insert_non_empty in H.
Qed.

(** A dictionary passes a schema when each loadable field does and no
    other key is there. *)
Lemma Schema_validate_empty (sch : Schema) (p : partial) (m : gmap string json) :
  Schema_validate E sch p (JObj m) = ∅
  ↔ Forall (λ nf, field_errors E p nf.1 nf.2 (m !! nf.1) = []) (load_fields sch)
    ∧ (∀ k, is_Some (m !! k) → k ∈ (load_fields sch).*1).
Proof.
  unfold Schema_validate.
  set (fs := list_to_map _). set (us := _ <$> _).
  assert (Hsplit : fs ∪ us = ∅ ↔ fs = ∅ ∧ us = ∅).
  { split.
    - intros H. split; apply map_empty; intros i;
        apply (f_equal (λ m, m !! i)) in H;
        rewrite lookup_empty in H; apply lookup_union_None in H; tauto.
    - intros [-> ->]. by rewrite (left_id_L ∅ (∪)). }
  rewrite Hsplit. subst fs us.
  rewrite list_to_map_empty, omap_nil_Forall, fmap_empty_iff.
  f_equiv.
  - apply Forall_proper; [| done]. intros [n f]. simpl.
    destruct (field_errors E p n f (m !! n)); split; congruence.
  - rewrite map_empty. split.
    + intros H k [v Hv]. specialize (H k).
      rewrite map_lookup_filter_None in H.
      destruct H as [H | H]; [congruence |].
      specialize (H v Hv). simpl in H.
      by destruct (decide (k ∈ (load_fields sch).*1)).
    + intros H k. apply map_lookup_filter_None. right. intros v Hv Hn.
      simpl in Hn. apply Hn, H. by exists v.
Qed.

(** Anything but a dictionary is refused. *)
Lemma Schema_validate_not_dict (sch : Schema) (p : partial) (data : json) :
  (∀ m, data ≠ JObj m) → Schema_validate E sch p data ≠ ∅.
Proof.
  intros H. destruct data; try apply map_non_empty_singleton.
  by destruct (H m).
Qed.

(** A key the schema does not load is refused, dump-only fields
    included. *)
Lemma Schema_validate_unknown (sch : Schema) (p : partial)
    (m : gmap string json) (k : string) :
  is_Some (m !! k) → k ∉ (load_fields sch).*1 →
  Schema_validate E sch p (JObj m) ≠ ∅.
Proof.
  intros Hk Hn H. apply Schema_validate_empty in H as [_ H]. by apply Hn, H.
Qed.

Lemma load_fields_TransactionSchema :
  load_fields TransactionSchema
  = [ ("amount", mk_field Int true false false [Range 1 "amount must be positive"]);
      ("type", mk_field Str true false false [OneOf ["income"; "expense"]]);
      ("category", mk_field Str true false false []);
      ("date", mk_field DateTime false false false []);
      ("note", mk_field Str false false false []) ].
Proof. reflexivity. Qed.

Lemma deserialize_Int (j : json) :
  j ≠ JNull →
  match integer_value E j with
  | Some n => deserialize E Int j = inl (VInt n)
  | None => ∃ msg, deserialize E Int j = inr msg
  end.
Proof.
  intros Hj. destruct j as [|b|n|f|x|l|m']; simpl; try done; eauto.
  - destruct f; simpl; eauto.
  - destruct (py_int_of_str E x); eauto.
Qed.

Lemma field_errors_present (p : partial) (name : string) (f : field) (j : json) :
  j ≠ JNull →
  field_errors E p name f (Some j)
  = match deserialize E (f_kind f) j with
    | inr msg => [msg]
    | inl x => omap (λ c, run_validator E c x) (validate f)
    end.
Proof. intros Hj. by destruct j. Qed.

Lemma amount_errors (p : partial) (v : option json) :
  field_errors E p "amount"
    (mk_field Int true false false [Range 1 "amount must be positive"]) v = []
  ↔ may_miss p "amount" v
    ∧ ∀ j, v = Some j → ∃ n, integer_value E j = Some n ∧ 1 ≤ n.
Proof.
  unfold may_miss. destruct v as [j|].
  - assert (j = JNull ∨ j ≠ JNull) as [-> | Hj] by (destruct j; auto).
    + simpl. split; [done |]. intros [_ H].
      by destruct (H JNull eq_refl) as (n & Hn & _).
    + rewrite field_errors_present by done. cbn [f_kind validate].
      pose proof (deserialize_Int j Hj) as Hd.
      destruct (integer_value E j) as [n|] eqn:Hv.
      * rewrite Hd. simpl. destruct (n <? 1) eqn:Hn; split; try done.
        -- intros [_ H]. destruct (H j eq_refl) as (n' & Heq & Hle).
           rewrite Hv in Heq. simplify_eq. lia.
        -- intros _. split; [done |]. intros j' [= <-].
           exists n. split; [done | lia].
      * destruct Hd as [msg ->]. split; [done |]. intros [_ H].
        destruct (H j eq_refl) as (n & Hn & _). congruence.
  - simpl. destruct (is_partial p "amount"); simpl; naive_solver.
Qed.

Lemma type_errors (p : partial) (v : option json) :
  field_errors E p "type"
    (mk_field Str true false false [OneOf ["income"; "expense"]]) v = []
  ↔ may_miss p "type" v
    ∧ ∀ j, v = Some j → j = JStr "income" ∨ j = JStr "expense".
Proof.
  unfold may_miss. destruct v as [j|]; simpl.
  - split.
    + intros H. split; [done |]. intros j' [= <-].
      destruct j as [|b|n|f|x|l|m']; simpl in *; try done.
      case_bool_decide as Hx; [| done]. set_unfold in Hx. naive_solver.
    + intros [_ H]. by destruct (H j eq_refl) as [-> | ->].
  - destruct (is_partial p "type"); simpl; naive_solver.
Qed.

Lemma str_errors (p : partial) (name : string) (req : bool) (v : option json) :
  field_errors E p name (mk_field Str req false false []) v = []
  ↔ (req = true → may_miss p name v) ∧ ∀ j, v = Some j → ∃ x, j = JStr x.
Proof.
  unfold may_miss. destruct v as [j|]; simpl.
  - split.
    + intros H. split; [done |]. intros j' [= <-].
      destruct j; simpl in *; try done. eauto.
    + intros [_ H]. by destruct (H j eq_refl) as [x ->].
  - destruct req, (is_partial p name); simpl; naive_solver.
Qed.

Lemma date_errors (p : partial) (v : option json) :
  field_errors E p "date" (mk_field DateTime false false false []) v = []
  ↔ ∀ j, v = Some j →
         ∃ d x, j = JStr d ∧ d ≠ "" ∧ from_iso_datetime E d = Some x.
Proof.
  destruct v as [j|]; simpl.
  - split.
    + intros H j' [= <-].
      destruct j as [|b|n|f|x|l|m']; simpl in *; try done.
      case_bool_decide as Hx; [done |].
      destruct (from_iso_datetime E x) eqn:Hd; [| done]. eauto.
    + intros H. destruct (H j eq_refl) as (d & x & -> & Hd & Hx). simpl.
      rewrite bool_decide_eq_false_2 by done. by rewrite Hx.
  - split; [by intros _ j | done].
Qed.

(** What [TransactionSchema] accepts, with every field optional ... *)
Lemma transaction_schema_partial (m : gmap string json) :
  Schema_validate E TransactionSchema PartialAll (JObj m) = ∅
  ↔ transaction_fields_ok E m.
Proof.
  rewrite Schema_validate_empty, load_fields_TransactionSchema.
  rewrite !Forall_cons, Forall_nil. simpl.
  rewrite amount_errors, type_errors, !str_errors, date_errors.
  unfold transaction_fields_ok, may_miss. simpl. naive_solver.
Qed.

(** ... and with the required fields required. *)
Lemma transaction_schema_full (m : gmap string json) :
  Schema_validate E TransactionSchema (PartialOnly []) (JObj m) = ∅
  ↔ transaction_fields_ok E m ∧ transaction_required m.
Proof.
  rewrite Schema_validate_empty, load_fields_TransactionSchema.
  rewrite !Forall_cons, Forall_nil. simpl.
  rewrite amount_errors, type_errors, !str_errors, date_errors.
  unfold transaction_fields_ok, transaction_required, may_miss. simpl.
  assert (Hreq : ∀ o : option json, (o = None → false = true) ↔ is_Some o).
  { intros [x|]; split.
    - intros _. by exists x.
    - intros _ H. discriminate.
    - intros H. by specialize (H eq_refl).
    - intros [x Hx]. discriminate. }
  rewrite !Hreq. clear Hreq. intuition discriminate.
Qed.

(** *** What [UserSchema] accepts *)

Lemma load_fields_UserSchema :
  load_fields UserSchema
  = [ ("name", mk_field Str true false false []);
      ("email", mk_field Str true false false [Email]);
      ("password", mk_field Str true false true []) ].
Proof. reflexivity. Qed.

Lemma email_errors (p : partial) (v : option json) :
  field_errors E p "email" (mk_field Str true false false [Email]) v = []
  ↔ may_miss p "email" v
    ∧ ∀ j, v = Some j → ∃ e, j = JStr e ∧ email_ok E e = true.
Proof.
  unfold may_miss. destruct v as [j|]; simpl.
  - split.
    + intros H. split; [done |]. intros j' [= <-].
      destruct j as [|b|n|f|x|l|m']; simpl in *; try done.
      destruct (email_ok E x) eqn:Hx; [eauto | done].
    + intros [_ H]. destruct (H j eq_refl) as (e & -> & He). simpl.
      by rewrite He.
  - destruct (is_partial p "email"); simpl; naive_solver.
Qed.

Lemma password_errors (p : partial) (v : option json) :
  field_errors E p "password" (mk_field Str true false true []) v = []
  ↔ may_miss p "password" v ∧ ∀ j, v = Some j → ∃ x, j = JStr x.
Proof.
  unfold may_miss. destruct v as [j|]; simpl.
  - split.
    + intros H. split; [done |]. intros j' [= <-].
      destruct j; simpl in *; try done. eauto.
    + intros [_ H]. by destruct (H j eq_refl) as [x ->].
  - destruct (is_partial p "password"); simpl; naive_solver.
Qed.

Lemma required_present (o : option json) :
  (o = None → false = true) ↔ is_Some o.
Proof.
  destruct o as [x|]; split.
  - intros _. by exists x.
  - intros _ H. discriminate.
  - intros H. by specialize (H eq_refl).
  - intros [x Hx]. discriminate.
Qed.

Lemma user_schema_full (m : gmap string json) :
  Schema_validate E UserSchema (PartialOnly []) (JObj m) = ∅
  ↔ user_fields_ok E m.
Proof.
  rewrite Schema_validate_empty, load_fields_UserSchema.
  rewrite !Forall_cons, Forall_nil. simpl.
  rewrite str_errors, email_errors, password_errors.
  unfold user_fields_ok, may_miss. simpl.
  rewrite !required_present. split.
  - intros (((Hn1 & Hn2) & (He1 & He2) & (Hp1 & Hp2) & _) & Hk).
    destruct (Hn1 eq_refl) as [vn Hvn]. destruct He1 as [ve Hve]. destruct Hp1 as [vp Hvp].
    destruct (Hn2 _ Hvn) as [name ->]. destruct (He2 _ Hve) as (e & -> & Hok).
    destruct (Hp2 _ Hvp) as [pw ->]. split_and!; eauto.
  - intros (Hk & (name & Hn) & (e & He & Hok) & (pw & Hp)).
    rewrite Hn, He, Hp. split; [| done].
    split_and!; try done; eauto; intros j [= <-]; eauto.
Qed.

Lemma user_schema_login (m : gmap string json) :
  Schema_validate E UserSchema (PartialOnly ["name"]) (JObj m) = ∅
  ↔ login_fields_ok E m.
Proof.
  rewrite Schema_validate_empty, load_fields_UserSchema.
  rewrite !Forall_cons, Forall_nil. simpl.
  rewrite str_errors, email_errors, password_errors.
  unfold login_fields_ok, may_miss. simpl.
  rewrite !required_present. split.
  - intros (((_ & Hn2) & (He1 & He2) & (Hp1 & Hp2) & _) & Hk).
    destruct He1 as [ve Hve]. destruct Hp1 as [vp Hvp].
    destruct (He2 _ Hve) as (e & -> & Hok).
    destruct (Hp2 _ Hvp) as [pw ->]. split_and!; eauto.
  - intros (Hk & Hn & (e & He & Hok) & (pw & Hp)).
    rewrite He, Hp. split; [| done].
    split_and!; try done; eauto; intros j [= <-]; eauto.
Qed.

(** *** Declared bodies *)

(** A dictionary meets a declared body when each declared property that is
    present is valid and no required one is missing. *)
Lemma is_valid_dict (sch : jsonschema.schema) (m : gmap string json) :
  jsonschema.is_valid (format_checker E) sch (JObj m) = true
  ↔ (∀ k p v, (k, p) ∈ jsonschema.properties sch → m !! k = Some v →
              jsonschema.property_is_valid (format_checker E) p v = true)
    ∧ (∀ k, k ∈ jsonschema.required_properties sch → is_Some (m !! k)).
Proof.
  unfold jsonschema.is_valid. rewrite andb_true_iff, !forallb_true_iff.
  f_equiv.
  - split.
    + intros H k p v Hin Hv. specialize (H (k, p) Hin). simpl in H.
      by rewrite Hv in H.
    + intros H [k p] Hin. simpl. destruct (m !! k) as [v|] eqn:Hv; [| done].
      by apply (H k p v).
  - split; intros H k Hk; specialize (H k Hk).
    + by apply bool_decide_eq_true in H.
    + by apply bool_decide_eq_true.
Qed.

Lemma parse_json_None (sch : jsonschema.schema) (m : gmap string json) :
  parse_json E sch (JObj m) = None
  ↔ jsonschema.is_valid (format_checker E) sch (JObj m) = true.
Proof. rewrite parse_json_dict. by case_match. Qed.

(** Beyond what [TransactionSchema] asks, the declared body of an add asks
    for a JSON integer as [amount] and for the format of [date]. *)
Lemma add_parse (m : gmap string json) :
  transaction_fields_ok E m → transaction_required m →
  parse_request E (AddTransaction (JObj m)) = None ↔ add_declared_ok E m.
Proof.
  intros (Hk & Ha & Hty & Hc & Hd & Hn) (Hra & Hrt & Hrc).
  cbn [parse_request]. rewrite parse_json_None, is_valid_dict. split.
  - intros [Hp _]. split.
    + intros v Hv. apply (proj1 (integer_property_valid E v)).
      apply (Hp "amount" _ v); [| done]. simpl. set_solver.
    + intros d Hv.
      assert (Hdate : jsonschema.property_is_valid (format_checker E)
                        (jsonschema.mk_property jsonschema.TString None
                                                (Some "date")) (JStr d) = true).
      { apply (Hp "date" _ (JStr d)); [| done]. simpl. set_solver. }
      apply (proj1 (date_property_valid E (JStr d))) in Hdate
        as (d' & [= <-] & Hf). done.
  - intros [Hint Hfmt]. split.
    + intros k p v Hin Hv. simpl in Hin.
      repeat (apply elem_of_cons in Hin as [[= -> ->] | Hin]);
        [..| by apply elem_of_nil in Hin].
      * apply (proj2 (integer_property_valid E v)). by apply Hint.
      * apply (proj2 (type_property_valid E v)). by apply Hty.
      * apply (proj2 (string_property_valid E v)). by apply Hc.
      * destruct (Hd v Hv) as (d & x & -> & _ & _).
        apply (proj2 (date_property_valid E (JStr d))).
        exists d. split; [done |]. by apply Hfmt.
      * apply (proj2 (string_property_valid E v)). by apply Hn.
    + intros k Hin. simpl in Hin. set_unfold in Hin.
      destruct Hin as [-> | [-> | [-> | []]]]; done.
Qed.


(** What [UserSchema] accepts meets the declared bodies of register and
    login. *)
Lemma register_parse (m : gmap string json) :
  user_fields_ok E m → parse_request E (Register (JObj m)) = None.
Proof.
  intros (_ & (name & Hn) & (email & He & _) & (password & Hp)).
  cbn [parse_request]. rewrite parse_json_None, is_valid_dict. split.
  - intros k p v Hin Hv. simpl in Hin.
    repeat (apply elem_of_cons in Hin as [[= -> ->] | Hin]);
      [..| by apply elem_of_nil in Hin];
      apply (proj2 (string_property_valid E v)); simplify_eq; by eexists.
  - intros k Hin. simpl in Hin. set_unfold in Hin.
    destruct Hin as [-> | [-> | [-> | []]]]; by eexists.
Qed.

Lemma login_parse (m : gmap string json) :
  login_fields_ok E m → parse_request E (Login (JObj m)) = None.
Proof.
  intros (_ & _ & (email & He & _) & (password & Hp)).
  cbn [parse_request]. rewrite parse_json_None, is_valid_dict. split.
  - intros k p v Hin Hv. simpl in Hin.
    repeat (apply elem_of_cons in Hin as [[= -> ->] | Hin]);
      [..| by apply elem_of_nil in Hin];
      apply (proj2 (string_property_valid E v)); simplify_eq; by eexists.
  - intros k Hin. simpl in Hin. set_unfold in Hin.
    destruct Hin as [-> | [-> | []]]; by eexists.
Qed.

End Validation.

(** ** Adding a transaction *)

Section Add.
Context (E : Env).

(** The row an insert stores belongs to the user it was given. *)
Lemma insert_transaction_owner w s user_id m t :
  insert_transaction E w s user_id m = Some t →
  Transaction.user_id t = user_id.
Proof.
  unfold insert_transaction. intros H.
  case_bool_decide; [| done]. by simplify_option_eq.
Qed.

(** With a token that passes, the answer is 400 exactly when the hook
    refuses the body or the schema reports an error. *)
Lemma add_transaction_400 w s a token data :
  jwt_required w s a = inr token →
  status (AddTransaction_post E w s a data).1 = 400
  ↔ parse_request E (AddTransaction data) ≠ None
    ∨ Schema_validate E TransactionSchema (PartialOnly []) data ≠ ∅.
Proof.
  intros Hj. unfold AddTransaction_post.
  destruct (parse_request E (AddTransaction data)) as [r|] eqn:Hq.
  { apply parse_request_status in Hq. simpl. split; [by left | done]. }
  rewrite Hj. case_bool_decide as Hv; [split; [by right | done] |].
  split.
  - repeat case_match; simpl; discriminate.
  - intros [? | ?]; done.
Qed.

(** Every outcome but 201 leaves the database alone, and a 201 adds one
    row owned by the user the token names. *)
Lemma add_transaction_outcome w s a data :
  let r := AddTransaction_post E w s a data in
  (status r.1 ≠ 201 ∧ r.2 = s)
  ∨ ∃ token user t,
      jwt_required w s a = inr token
      ∧ user_by_email s (sub token) = Some user
      ∧ Schema_validate E TransactionSchema (PartialOnly []) data = ∅
      ∧ r = (mk_response 201 (transaction_schema_dump E t),
             mk_db (users s) (token_blocklist s) (transactions s ++ [t]))
      ∧ Transaction.user_id t = User.user_id user.
Proof.
  unfold AddTransaction_post.
  destruct (parse_request E (AddTransaction data)) as [r|] eqn:Hq.
  { left. apply parse_request_status in Hq. simpl. rewrite Hq. done. }
  destruct (jwt_required w s a) as [r|token] eqn:Hj.
  { left. apply jwt_required_inl in Hj as ->. done. }
  case_bool_decide as Hv; [by left |].
  destruct (user_by_email s (sub token)) as [user|] eqn:Hu; [| by left].
  destruct data as [| | | | | |m]; try by left.
  destruct (insert_transaction E w s (User.user_id user) m) as [t|] eqn:Hi;
    [| by left].
  right. exists token, user, t. repeat split; try done.
  by eapply insert_transaction_owner.
Qed.

End Add.

(** The smallest body: the three required fields, [amount] an [int]. *)
Lemma minimal_body_inserted (E : Env) (w : world) (s : db) (user_id n : Z)
    (ty c : string) :
  let m : gmap string json :=
    list_to_map [("amount", JInt n); ("type", JStr ty); ("category", JStr c)] in
  1 ≤ n → ty = "income" ∨ ty = "expense" →
  parse_request E (AddTransaction (JObj m)) = None
  ∧ Schema_validate E TransactionSchema (PartialOnly []) (JObj m) = ∅
  ∧ insert_transaction E w s user_id m
    = Some (Transaction.mk (fresh_id (Transaction.id <$> transactions s))
                           user_id n ty c (today w) "NA").
Proof.
  intros m Hn Hty.
  assert (Ha : m !! "amount" = Some (JInt n)) by reflexivity.
  assert (Ht : m !! "type" = Some (JStr ty)) by reflexivity.
  assert (Hc : m !! "category" = Some (JStr c)) by reflexivity.
  assert (Hd : m !! "date" = None) by reflexivity.
  assert (Hno : m !! "note" = None) by reflexivity.
  assert (Hid : m !! "id" = None) by reflexivity.
  assert (Hdom : dom m = {[ "amount"; "type"; "category" ]}).
  { subst m. rewrite dom_list_to_map_L. simpl. set_solver. }
  assert (Hok : transaction_fields_ok E m).
  { split; [| rewrite Ha, Ht, Hc, Hd, Hno; naive_solver].
    intros k Hk. apply elem_of_dom in Hk. rewrite Hdom in Hk.
    set_unfold. naive_solver. }
  assert (Hreq : transaction_required m).
  { unfold transaction_required. rewrite Ha, Ht, Hc. eauto. }
  split; [| split].
  - apply add_parse; [done.. |]. split.
    + intros v Hv. rewrite Ha in Hv. injection Hv as <-. left. by exists n.
    + intros d Hv. rewrite Hd in Hv. discriminate.
  - by apply transaction_schema_full.
  - unfold insert_transaction.
    rewrite bool_decide_eq_true_2 by (rewrite Hdom; set_solver).
    by rewrite Hid, Ha, Ht, Hc, Hd, Hno.
Qed.

(** C5, as the code has it.  With a token that passes, adding answers 400
    exactly when the body is not a dictionary that both the declared body
    and [TransactionSchema] accept: a key other than the five loadable
    fields, a required field missing, an [amount] that is not a JSON integer
    of at least 1, a [type] other than income or expense, a [category] or
    [note] that is not a string, or a [date] the ISO reader or the format
    check refuses; a 400 stores nothing.  In particular an [amount] of 0 or
    below and a [type] such as "loan" are answered with 400, and the three
    required fields with [amount] 1 and [type] income or expense are stored
    and answered with 201. *)
Theorem add_transaction_400_iff_schema_error (E : Env) (w : world) (s : db)
    (a : authorization) (token : jwt) (data : json) :
  jwt_required w s a = inr token →
  let r := AddTransaction_post E w s a data in
  (status r.1 = 400
   ↔ ¬ ∃ m, data = JObj m ∧ transaction_fields_ok E m ∧ transaction_required m
            ∧ add_declared_ok E m)
  ∧ (status r.1 = 400 → r.2 = s)
  ∧ (∀ m n, data = JObj m → m !! "amount" = Some (JInt n) → n ≤ 0 →
            status r.1 = 400)
  ∧ (∀ m x, data = JObj m → m !! "amount" = Some (JStr x) → status r.1 = 400)
  ∧ (∀ m ty, data = JObj m → m !! "type" = Some (JStr ty) →
             ty ≠ "income" → ty ≠ "expense" → status r.1 = 400)
  ∧ (∀ user ty c,
       user_by_email s (sub token) = Some user →
       ty = "income" ∨ ty = "expense" →
       data = obj [("amount", JInt 1); ("type", JStr ty); ("category", JStr c)] →
       let t := Transaction.mk (fresh_id (Transaction.id <$> transactions s))
                               (User.user_id user) 1 ty c (today w) "NA" in
       r = (mk_response 201 (transaction_schema_dump E t),
            mk_db (users s) (token_blocklist s) (transactions s ++ [t]))).
Proof.
  intros Hj r.
  assert (H400 : status r.1 = 400
                 ↔ ¬ ∃ m, data = JObj m ∧ transaction_fields_ok E m
                          ∧ transaction_required m ∧ add_declared_ok E m).
  { subst r. rewrite (add_transaction_400 E w s a token data Hj). split.
    - intros [Hq | Hv] (m & -> & Hok & Hreq & Hdecl).
      + by apply Hq, add_parse.
      + by apply Hv, transaction_schema_full.
    - intros Hno.
      destruct (decide (Schema_validate E TransactionSchema (PartialOnly []) data
                        = ∅)) as [Hv | Hv]; [| by right].
      left. intros Hq. apply Hno.
      destruct data as [| | | | | |m];
        try (by apply Schema_validate_not_dict in Hv).
      apply transaction_schema_full in Hv as [Hok Hreq].
      exists m. split; [done |]. split; [done |]. split; [done |].
      by apply add_parse. }
  split; [exact H400 |]. split; [| split; [| split; [| split]]].
  - intros H4. destruct (add_transaction_outcome E w s a data) as [[_ H] | H];
      [done |].
    destruct H as (? & ? & t & _ & _ & _ & Hr & _). fold r in Hr.
    rewrite Hr in H4. discriminate.
  - intros m n -> Ha Hn. apply H400. intros (m' & [= <-] & Hok & _).
    destruct Hok as (_ & Hamount & _).
    destruct (Hamount _ Ha) as (n' & [= <-] & Hle). lia.
  - intros m x -> Ha. apply H400. intros (m' & [= <-] & _ & _ & Hint & _).
    by destruct (Hint _ Ha) as [[n ?] | (f & ? & _)].
  - intros m ty -> Ht H1 H2. apply H400. intros (m' & [= <-] & Hok & _).
    destruct Hok as (_ & _ & Htype & _).
    destruct (Htype _ Ht) as [[= ->] | [= ->]]; congruence.
  - intros user ty c Hu Hty -> t. subst r. unfold AddTransaction_post, obj.
    destruct (minimal_body_inserted E w s (User.user_id user) 1 ty c
                ltac:(lia) Hty) as (Hq & Hv & Hi).
    rewrite Hq, Hj, Hv. rewrite bool_decide_eq_false_2 by (by intros H; apply H).
    by rewrite Hu, Hi.
Qed.

(** An [amount] that reads as 5 but is a string. *)
Lemma add_transaction_400_iff_schema_error_witness :
  status (AddTransaction_post Demo.env Demo.w1 Demo.store (Bearer Demo.token)
            (obj [("amount", JStr "5"); ("type", JStr "income");
                  ("category", JStr "food")])).1 = 400.
Proof.
  pose proof (add_transaction_400_iff_schema_error Demo.env Demo.w1 Demo.store
                (Bearer Demo.token) Demo.token
                (obj [("amount", JStr "5"); ("type", JStr "income");
                      ("category", JStr "food")]) eq_refl)
    as (_ & _ & _ & H & _).
  apply (H _ "5" eq_refl). reflexivity.
Defined.

(** C5 as stated fails: a body that follows the stated rules, with one
    further key, is answered with 400. *)
Lemma add_transaction_400_beyond_stated_rules :
  let data := obj [("amount", JInt 1); ("type", JStr "income");
                   ("category", JStr "food"); ("currency", JStr "EUR")] in
  let r := AddTransaction_post Demo.env Demo.w1 Demo.store (Bearer Demo.token) data in
  meets_stated_rules data
  ∧ status r.1 = 400
  ∧ ¬ (status r.1 = 400 ↔ ¬ meets_stated_rules data).
Proof.
  intros data r.
  assert (Hm : meets_stated_rules data).
  { eexists _, 1, "income", "food". split; [reflexivity |].
    repeat split; try reflexivity. by left. }
  assert (Hr : status r.1 = 400) by (vm_compute; reflexivity).
  split; [done |]. split; [done |]. intros [H _]. by apply H.
Qed.


(** ** Editing a transaction *)

Section Edit.
Context (E : Env).

(** A dumped transaction carries [id], which the schema does not load:
    as the body of an edit it is refused before any lookup. *)
Lemma edit_refuses_dump w s a token transaction_id t :
  jwt_required w s a = inr token →
  ∃ r,
    EditTransaction_patch E w s a transaction_id (transaction_schema_dump E t)
    = (r, s)
    ∧ status r = 400.
Proof.
  intros Hj. unfold EditTransaction_patch.
  destruct (parse_request E _) as [r|] eqn:Hq.
  { exists r. split; [done |]. by apply parse_request_status in Hq. }
  unfold transaction_schema_dump, obj.
  rewrite Hj. rewrite bool_decide_eq_true_2.
  { eexists. split; reflexivity. }
  apply (Schema_validate_unknown E _ _ _ "id").
  - by eexists.
  - clear. rewrite load_fields_TransactionSchema. set_solver.
Qed.

(** The loop [for key, value in data.items(): setattr(...)] sets exactly
    the items of [data]. *)
Lemma setattr_items (m : gmap string json) :
  foldl (λ attrs kv, setattr attrs kv.1 kv.2) ∅ (map_to_list m) = m.
Proof.
  assert (Hgen : ∀ (l : list (string * json)) (acc : gmap string json),
            NoDup l.*1 →
            foldl (λ attrs kv, setattr attrs kv.1 kv.2) acc l
            = list_to_map l ∪ acc).
  { induction l as [|[k v] l IH]; intros acc Hnd; simpl.
    - by rewrite (left_id_L ∅ (∪)).
    - apply NoDup_cons in Hnd as [Hk Hnd]. rewrite IH by done.
      unfold setattr. simpl.
      rewrite <- insert_union_l.
      by rewrite <- insert_union_r by (by apply not_elem_of_list_to_map_1). }
  rewrite Hgen by apply NoDup_fst_map_to_list.
  by rewrite list_to_map_to_list, (right_id_L ∅ (∪)).
Qed.

(** The columns of a flushed row, one by one. *)
Lemma flush_update_columns t attrs t' :
  flush_update E t attrs = Some t' →
  flush_integer E (Transaction.id t) (attrs !! "id") = Some (Transaction.id t')
  ∧ flush_integer E (Transaction.user_id t) (attrs !! "user_id")
    = Some (Transaction.user_id t')
  ∧ flush_integer E (Transaction.amount t) (attrs !! "amount")
    = Some (Transaction.amount t')
  ∧ flush_string (Transaction.type t) (attrs !! "type")
    = Some (Transaction.type t')
  ∧ flush_string (Transaction.category t) (attrs !! "category")
    = Some (Transaction.category t')
  ∧ flush_datetime E (Transaction.date t) (attrs !! "date")
    = Some (Transaction.date t')
  ∧ flush_string (Transaction.note t) (attrs !! "note")
    = Some (Transaction.note t').
Proof.
  unfold flush_update. intros H.
  destruct (flush_integer E (Transaction.id t) (attrs !! "id")); [| done].
  destruct (flush_integer E (Transaction.user_id t) (attrs !! "user_id"));
    [| done].
  destruct (flush_integer E (Transaction.amount t) (attrs !! "amount"));
    [| done].
  destruct (flush_string (Transaction.type t) (attrs !! "type")); [| done].
  destruct (flush_string (Transaction.category t) (attrs !! "category"));
    [| done].
  destruct (flush_datetime E (Transaction.date t) (attrs !! "date")); [| done].
  destruct (flush_string (Transaction.note t) (attrs !! "note")); [| done].
  simpl in H. by simplify_eq.
Qed.

(** A date the driver does not bind makes the flush raise. *)
Lemma flush_update_date_refused t attrs d :
  attrs !! "date" = Some (JStr d) → bind_datetime E d = None →
  flush_update E t attrs = None.
Proof.
  intros Hd Hb.
  destruct (flush_update E t attrs) as [t'|] eqn:Hf; [| done].
  destruct (flush_update_columns t attrs t' Hf) as (_ & _ & _ & _ & _ & H & _).
  rewrite Hd in H. simpl in H. congruence.
Qed.


(** An edit that gets past the hook, the token check, the validation and
    the lookup answers with the flushed row or, when the flush raises, with
    500. *)
Lemma edit_of_owned w s a token user transaction_id m t :
  jwt_required w s a = inr token →
  user_by_email s (sub token) = Some user →
  transaction_by_id_and_owner s transaction_id (User.user_id user) = Some t →
  parse_request E (EditTransaction transaction_id (JObj m)) = None →
  Schema_validate E TransactionSchema PartialAll (JObj m) = ∅ →
  EditTransaction_patch E w s a transaction_id (JObj m)
  = match flush_update E t m with
    | Some t' =>
        (mk_response 200 (transaction_schema_dump E t'),
         mk_db (users s) (token_blocklist s)
               (update_row transaction_id t' (transactions s)))
    | None => (Api_handle_error, s)
    end.
Proof.
  intros Hj Hu Ht Hq Hv.
  destruct (transaction_by_id_and_owner_Some _ _ _ _ Ht) as (_ & Hid & _).
  unfold EditTransaction_patch. rewrite Hq, Hj, Hv.
  rewrite bool_decide_eq_false_2 by (by intros H; apply H).
  by rewrite Hu, Ht, setattr_items, Hid.
Qed.

End Edit.

(** C9, as the code has it.  For a transaction that adding created, the
    dumped representation re-submitted as it is as an edit of that
    transaction is answered with 400, because it carries the dump-only
    fields [id] and [user_id]; the database, and with it every stored field
    of the transaction, stays as it was. *)
Theorem dump_resubmitted_as_edit_is_refused (E : Env) (w : world) (s : db)
    (a : authorization) (data : json) :
  let r := AddTransaction_post E w s a data in
  status r.1 = 201 →
  ∃ t,
    r.1 = mk_response 201 (transaction_schema_dump E t)
    ∧ transactions r.2 = transactions s ++ [t]
    ∧ ∀ w' s' a' token',
        jwt_required w' s' a' = inr token' →
        let r' := EditTransaction_patch E w' s' a' (Transaction.id t) (body r.1) in
        status r'.1 = 400 ∧ r'.2 = s'.
Proof.
  intros r H201.
  destruct (add_transaction_outcome E w s a data) as [[H _] | H]; [done |].
  destruct H as (_ & _ & t & _ & _ & _ & Hr & _). fold r in Hr.
  exists t. rewrite Hr. simpl. split; [done |]. split; [done |].
  intros w' s' a' token' Hj.
  destruct (edit_refuses_dump E w' s' a' token' (Transaction.id t) t Hj)
    as (r' & -> & Hs).
  done.
Qed.

Lemma dump_resubmitted_as_edit_is_refused_witness :
  ∃ t,
    (AddTransaction_post Demo.env Demo.w1 Demo.store (Bearer Demo.token)
       (obj [("amount", JInt 1); ("type", JStr "income");
             ("category", JStr "food")])).1
    = mk_response 201 (transaction_schema_dump Demo.env t).
Proof.
  destruct (dump_resubmitted_as_edit_is_refused Demo.env Demo.w1 Demo.store
              (Bearer Demo.token)
              (obj [("amount", JInt 1); ("type", JStr "income");
                    ("category", JStr "food")]) eq_refl) as (t & H & _).
  by exists t.
Defined.

(** C9 as stated fails: the edit that re-submits the dump does not
    succeed. *)
Lemma dump_resubmitted_as_edit_does_not_succeed :
  let added :=
    AddTransaction_post Demo.env Demo.w1 Demo.store (Bearer Demo.token)
      (obj [("amount", JInt 1); ("type", JStr "income");
            ("category", JStr "food")]) in
  let edited :=
    EditTransaction_patch Demo.env Demo.w2 added.2 (Bearer Demo.token) 4
      (body added.1) in
  status added.1 = 201
  ∧ (∃ t, last (transactions added.2) = Some t ∧ Transaction.id t = 4
          ∧ body added.1 = transaction_schema_dump Demo.env t)
  ∧ status edited.1 = 400
  ∧ ¬ status edited.1 = 200.
Proof.
  intros added edited.
  split; [by vm_compute |]. split.
  - exists (Transaction.mk 4 1 1 "income" "food" (mk_datetime 2025 9 5 0 0 0 0) "NA").
    by vm_compute.
  - assert (H : status edited.1 = 400) by (by vm_compute).
    split; [done |]. rewrite H. discriminate.
Qed.

(** C6, where the code breaks it.  The edit hands the values of the
    payload to the database as they are, the [date] as the string it came
    as.  For a transaction the caller owns and a payload that meets the
    declared body and passes the partial validation, with a [date] the
    database does not bind as a string, the edit is answered with 500 and
    updates nothing, neither the date nor any other field of the payload. *)
Theorem edit_with_date_is_500_where_unbound (E : Env) (w : world) (s : db)
    (a : authorization) (token : jwt) (user : User.t) (transaction_id : Z)
    (m : gmap string json) (t : Transaction.t) (d : string) :
  jwt_required w s a = inr token →
  user_by_email s (sub token) = Some user →
  transaction_by_id_and_owner s transaction_id (User.user_id user) = Some t →
  parse_request E (EditTransaction transaction_id (JObj m)) = None →
  Schema_validate E TransactionSchema PartialAll (JObj m) = ∅ →
  m !! "date" = Some (JStr d) →
  bind_datetime E d = None →
  EditTransaction_patch E w s a transaction_id (JObj m)
  = (mk_response 500 (obj [("message", JStr "Internal Server Error")]), s).
Proof.
  intros Hj Hu Ht Hq Hv Hd Hb.
  rewrite (edit_of_owned E w s a token user transaction_id m t Hj Hu Ht Hq Hv).
  by rewrite (flush_update_date_refused E t m d Hd Hb).
Qed.

(** With SQLite's [DateTime]: a new date and a new note for Alice's first
    transaction. *)
Lemma edit_with_date_is_500_where_unbound_witness :
  EditTransaction_patch Demo.sqlite Demo.w1 Demo.store (Bearer Demo.token) 1
    (obj [("date", JStr "2025-09-10"); ("note", JStr "bonus")])
  = (mk_response 500 (obj [("message", JStr "Internal Server Error")]),
     Demo.store).
Proof.
  apply (edit_with_date_is_500_where_unbound Demo.sqlite Demo.w1 Demo.store
           (Bearer Demo.token) Demo.token Demo.alice 1
           (list_to_map [("date", JStr "2025-09-10"); ("note", JStr "bonus")])
           Demo.salary "2025-09-10").
  - reflexivity.
  - reflexivity.
  - reflexivity.
  - vm_compute. reflexivity.
  - vm_compute. reflexivity.
  - reflexivity.
  - reflexivity.
Defined.

(** ** Registering an address twice *)

(** C4, what the code does.  A register request that passes validation and
    whose e-mail already belongs to a user is answered with 500, the
    unhandled error of the unique constraint, not with 400 or 409; no user is
    added, so the addresses stay distinct. *)
Theorem register_existing_email_is_500 (E : Env) (w : world) (s : db)
    (m : gmap string json) (email : string) :
  Schema_validate E UserSchema (PartialOnly []) (JObj m) = ∅ →
  m !! "email" = Some (JStr email) →
  (∃ u, u ∈ users s ∧ User.email u = email) →
  Register_post E w s (JObj m) = (Api_handle_error, s)
  ∧ status (Register_post E w s (JObj m)).1 = 500.
Proof.
  intros Hv He (u & Hu & Hue).
  assert (Hr : Register_post E w s (JObj m) = (Api_handle_error, s)).
  { unfold Register_post.
    rewrite (register_parse E m) by (by apply user_schema_full).
    rewrite Hv, He.
    rewrite bool_decide_eq_false_2 by (by intros H; apply H).
    repeat case_match; try done.
    match goal with H : bool_decide _ = false |- _ =>
      apply bool_decide_eq_false in H; destruct H end.
    apply Exists_exists. by exists u. }
  by rewrite Hr.
Qed.

Lemma register_existing_email_is_500_witness :
  status (Register_post Demo.env Demo.w2 Demo.store
            (obj [("name", JStr "Alice B"); ("email", JStr "alice@example.com");
                  ("password", JStr "another1")])).1 = 500.
Proof.
  apply (register_existing_email_is_500 Demo.env Demo.w2 Demo.store
           (list_to_map [("name", JStr "Alice B");
                         ("email", JStr "alice@example.com");
                         ("password", JStr "another1")])
           "alice@example.com").
  - vm_compute. reflexivity.
  - reflexivity.
  - exists Demo.alice. split; [set_solver | reflexivity].
Defined.

(** * Further properties of the service *)

(** ** Keys *)

Lemma fresh_id_above (keys : list Z) (k : Z) : k ∈ keys → k < fresh_id keys.
Proof.
  unfold fresh_id. induction keys as [|x keys IH]; intros H.
  - by apply elem_of_nil in H.
  - simpl. apply elem_of_cons in H as [-> | H]; [lia |].
    specialize (IH H). lia.
Qed.

Lemma fresh_id_fresh (keys : list Z) : fresh_id keys ∉ keys.
Proof. intros H. apply fresh_id_above in H. lia. Qed.

(** ** What one request does to the database *)

Section Effects.
Context (E : Env).

Lemma Register_effect w s data :
  let r := Register_post E w s data in
  r.2 = s
  ∨ ∃ m name email password,
      data = JObj m
      ∧ Schema_validate E UserSchema (PartialOnly []) data = ∅
      ∧ m !! "name" = Some (JStr name)
      ∧ m !! "email" = Some (JStr email)
      ∧ m !! "password" = Some (JStr password)
      ∧ (∀ u, u ∈ users s → User.email u ≠ email)
      ∧ let new_user :=
          User.mk (fresh_id (User.user_id <$> users s)) name email
                  (generate_password_hash E password (salt w)) (datetime_now w) in
        r = (mk_response 201 (user_schema_dump E new_user),
             mk_db (users s ++ [new_user]) (token_blocklist s) (transactions s)).
Proof.
  unfold Register_post.
  destruct (parse_request E (Register data)) as [r|]; [by left |].
  case_bool_decide as Hv; [by left |].
  destruct data as [| | | | | |m]; try by left.
  destruct (m !! "name") as [[| | | |name| |]|] eqn:Hn; try by left.
  destruct (m !! "email") as [[| | | |email| |]|] eqn:He; try by left.
  destruct (m !! "password") as [[| | | |password| |]|] eqn:Hp; try by left.
  case_bool_decide as Hex; [by left |].
  right. exists m, name, email, password. repeat split; try done.
  intros u Hu Hue. apply Hex, Exists_exists. by exists u.
Qed.

Lemma Logout_effect w s a :
  let r := Logout_post w s a in
  r.2 = s
  ∨ ∃ t, jwt_required w s a = inr t
         ∧ r = (mk_response 200 (obj [("message", JStr "successfully logged out")]),
                mk_db (users s)
                      (token_blocklist s ++
                         [TokenBlocklist.mk
                            (fresh_id (TokenBlocklist.id <$> token_blocklist s))
                            (jti t)])
                      (transactions s)).
Proof.
  unfold Logout_post. destruct (jwt_required w s a) as [r|t]; [by left |].
  right. by exists t.
Qed.

(** The row an insert stores, read off a validated body. *)
Lemma insert_transaction_inv w s user_id m t :
  transaction_fields_ok E m →
  insert_transaction E w s user_id m = Some t →
  Transaction.id t = fresh_id (Transaction.id <$> transactions s)
  ∧ Transaction.user_id t = user_id
  ∧ (∃ v, m !! "amount" = Some v ∧ to_integer E v = Some (Transaction.amount t))
  ∧ m !! "type" = Some (JStr (Transaction.type t))
  ∧ m !! "category" = Some (JStr (Transaction.category t))
  ∧ (m !! "date" = None → Transaction.date t = today w)
  ∧ (∀ v, m !! "date" = Some v → to_datetime E v = Some (Transaction.date t))
  ∧ (m !! "note" = None → Transaction.note t = "NA")
  ∧ (∀ v, m !! "note" = Some v → v = JStr (Transaction.note t)).
Proof.
  intros (Hk & _) Hi. unfold insert_transaction in Hi.
  case_bool_decide; [| done].
  assert (Hid : m !! "id" = None).
  { destruct (m !! "id") eqn:Hid; [| done].
    assert (Hin : "id" ∈ ["amount"; "type"; "category"; "date"; "note"])
      by (apply Hk; by rewrite Hid).
    set_unfold. naive_solver. }
  rewrite Hid in Hi. simpl in Hi.
  destruct (m !! "amount") as [va|]; [| done]. simpl in Hi.
  destruct (to_integer E va) as [n|] eqn:Ha; [| done]. simpl in Hi.
  destruct (m !! "type") as [vt|]; [| done]. simpl in Hi.
  destruct (to_string vt) as [ty|] eqn:Hty; [| done]. simpl in Hi.
  destruct (m !! "category") as [vc|]; [| done]. simpl in Hi.
  destruct (to_string vc) as [c|] eqn:Hc; [| done]. simpl in Hi.
  assert (Hstr : ∀ v x, to_string v = Some x → v = JStr x).
  { intros v x Hv. destruct v; simpl in Hv; congruence. }
  apply Hstr in Hty as ->. apply Hstr in Hc as ->.
  destruct (m !! "date") as [vd|].
  - destruct (to_datetime E vd) as [d|] eqn:Hd; [| done]. simpl in Hi.
    destruct (m !! "note") as [vn|].
    + destruct (to_string vn) as [z|] eqn:Hz; [| done]. simpl in Hi.
      apply Hstr in Hz as ->. simplify_eq. simpl.
      repeat split; try done; eauto; congruence.
    + simpl in Hi. simplify_eq. simpl.
      repeat split; try done; eauto; congruence.
  - simpl in Hi. destruct (m !! "note") as [vn|].
    + destruct (to_string vn) as [z|] eqn:Hz; [| done]. simpl in Hi.
      apply Hstr in Hz as ->. simplify_eq. simpl.
      repeat split; try done; eauto; congruence.
    + simpl in Hi. simplify_eq. simpl.
      repeat split; try done; eauto; congruence.
Qed.

Lemma AddTransaction_effect w s a data :
  let r := AddTransaction_post E w s a data in
  r.2 = s
  ∨ ∃ token user m t,
      jwt_required w s a = inr token
      ∧ user_by_email s (sub token) = Some user
      ∧ data = JObj m
      ∧ transaction_fields_ok E m ∧ transaction_required m
      ∧ insert_transaction E w s (User.user_id user) m = Some t
      ∧ r = (mk_response 201 (transaction_schema_dump E t),
             mk_db (users s) (token_blocklist s) (transactions s ++ [t])).
Proof.
  unfold AddTransaction_post.
  destruct (parse_request E (AddTransaction data)) as [r|]; [by left |].
  destruct (jwt_required w s a) as [r|token] eqn:Hj; [by left |].
  case_bool_decide as Hv; [by left |].
  destruct (user_by_email s (sub token)) as [user|] eqn:Hu; [| by left].
  destruct data as [| | | | | |m]; try by left.
  destruct (insert_transaction E w s (User.user_id user) m) as [t|] eqn:Hi;
    [| by left].
  right. exists token, user, m, t.
  apply transaction_schema_full in Hv as [Hok Hreq].
  split_and!; done.
Qed.

Lemma EditTransaction_effect w s a transaction_id data :
  let r := EditTransaction_patch E w s a transaction_id data in
  r.2 = s
  ∨ ∃ token user m t t',
      jwt_required w s a = inr token
      ∧ user_by_email s (sub token) = Some user
      ∧ data = JObj m
      ∧ transaction_fields_ok E m
      ∧ transaction_by_id_and_owner s transaction_id (User.user_id user) = Some t
      ∧ flush_update E t m = Some t'
      ∧ r = (mk_response 200 (transaction_schema_dump E t'),
             mk_db (users s) (token_blocklist s)
                   (update_row transaction_id t' (transactions s))).
Proof.
  unfold EditTransaction_patch.
  destruct (parse_request E (EditTransaction transaction_id data)) as [r|];
    [by left |].
  destruct (jwt_required w s a) as [r|token] eqn:Hj; [by left |].
  case_bool_decide as Hv; [by left |].
  destruct (user_by_email s (sub token)) as [user|] eqn:Hu; [| by left].
  destruct (transaction_by_id_and_owner s transaction_id (User.user_id user))
    as [t|] eqn:Ht; [| by left].
  destruct data as [| | | | | |m]; try by left.
  rewrite setattr_items.
  destruct (flush_update E t m) as [t'|] eqn:Hf; [| by left].
  right. exists token, user, m, t, t'.
  apply transaction_schema_partial in Hv.
  destruct (transaction_by_id_and_owner_Some _ _ _ _ Ht) as (_ & Hid & _).
  rewrite Hid. split_and!; done.
Qed.

Lemma DeleteTransaction_effect w s a transaction_id :
  let r := DeleteTransaction_delete w s a transaction_id in
  r.2 = s
  ∨ ∃ token user t,
      jwt_required w s a = inr token
      ∧ user_by_email s (sub token) = Some user
      ∧ transaction_by_id_and_owner s transaction_id (User.user_id user) = Some t
      ∧ r = (mk_response 200
               (obj [("message", JStr "transaction deleted successfully")]),
             mk_db (users s) (token_blocklist s)
                   (delete_row transaction_id (transactions s))).
Proof.
  unfold DeleteTransaction_delete.
  destruct (jwt_required w s a) as [r|token] eqn:Hj; [by left |].
  destruct (user_by_email s (sub token)) as [user|] eqn:Hu; [| by left].
  destruct (transaction_by_id_and_owner s transaction_id (User.user_id user))
    as [t|] eqn:Ht; [| by left].
  right. exists token, user, t.
  destruct (transaction_by_id_and_owner_Some _ _ _ _ Ht) as (_ & Hid & _).
  rewrite Hid. split_and!; done.
Qed.

(** The routes that only read. *)
Lemma read_routes_effect w s a data args :
  (Login_post E w s data).2 = s
  ∧ (GetTransactions_get E w s a args).2 = s
  ∧ (MonthlySummary_get E w s a args).2 = s
  ∧ (CategoryBreakdown_get E w s a args).2 = s.
Proof.
  unfold Login_post, GetTransactions_get, MonthlySummary_get,
    CategoryBreakdown_get.
  repeat split; repeat case_match; done.
Qed.

End Effects.

(** ** Invariants *)

Section Invariants.
Context (E : Env).

(** A property every request keeps holds after any sequence of them. *)
Lemma run_invariant (I : db → Prop) :
  (∀ w s a r, I s → I (handle E w s a r).2) →
  ∀ trace s, I s → I (run E s trace).
Proof.
  intros Hstep trace. induction trace as [|[[w a] r] trace IH]; intros s Hs;
    [done |].
  unfold run in *. simpl. apply IH. by apply Hstep.
Qed.

Lemma NoDup_snoc_fresh (keys : list Z) :
  NoDup keys → NoDup (keys ++ [fresh_id keys]).
Proof.
  intros H. apply NoDup_app. split; [done |]. split.
  - intros x Hx Hin. apply list_elem_of_singleton in Hin as ->.
    by apply fresh_id_fresh in Hx.
  - apply NoDup_singleton.
Qed.

Lemma update_row_ids key t' rows :
  Transaction.id t' = key →
  Transaction.id <$> update_row key t' rows = Transaction.id <$> rows.
Proof.
  intros Hk. unfold update_row. rewrite <- list_fmap_compose.
  apply list_fmap_ext. intros i r _. simpl. by case_bool_decide; simplify_eq.
Qed.

(** The flush of a validated payload keeps [id] and [user_id]. *)
Lemma flush_update_keeps_keys t m t' :
  transaction_fields_ok E m →
  flush_update E t m = Some t' →
  Transaction.id t' = Transaction.id t
  ∧ Transaction.user_id t' = Transaction.user_id t.
Proof.
  intros (Hk & _) Hf.
  destruct (flush_update_columns E t m t' Hf) as (Hc1 & Hc2 & _).
  assert (Hnokey : ∀ k, k ∉ ["amount"; "type"; "category"; "date"; "note"] →
                        m !! k = None).
  { intros k Hk'. destruct (m !! k) eqn:Hm; [| done].
    destruct Hk'. apply Hk. by rewrite Hm. }
  rewrite (Hnokey "id") in Hc1 by set_solver.
  rewrite (Hnokey "user_id") in Hc2 by set_solver.
  simpl in *. split; congruence.
Qed.

Lemma handle_keys_unique w s a r :
  keys_unique s → keys_unique (handle E w s a r).2.
Proof.
  intros (Hu & He & Hb & Ht). destruct r as [data|data| |data|args|tid data|tid|args|args];
    simpl.
  - destruct (Register_effect E w s data) as [-> | H]; [done |].
    destruct H as (m & name & email & password & _ & _ & _ & _ & _ & Hfresh & ->).
    simpl. unfold keys_unique. simpl. rewrite !fmap_app. simpl.
    split_and!; try done.
    + by apply NoDup_snoc_fresh.
    + apply NoDup_app. split; [done |]. split; [| apply NoDup_singleton].
      intros x Hx Hin. apply list_elem_of_singleton in Hin as ->.
      apply list_elem_of_fmap in Hx as (u & Hue & Hu'). by apply (Hfresh u).
  - by rewrite (proj1 (read_routes_effect E w s a data ∅)).
  - destruct (Logout_effect w s a) as [-> | (t & _ & ->)]; [done |].
    unfold keys_unique. simpl. rewrite fmap_app. simpl.
    split_and!; try done. by apply NoDup_snoc_fresh.
  - destruct (AddTransaction_effect E w s a data) as [-> | H]; [done |].
    destruct H as (token & user & m & t & _ & _ & _ & Hok & _ & Hi & ->).
    destruct (insert_transaction_inv E w s _ m t Hok Hi) as (Hid & _).
    unfold keys_unique. simpl. rewrite fmap_app. simpl. rewrite Hid.
    split_and!; try done. by apply NoDup_snoc_fresh.
  - by rewrite (proj1 (proj2 (read_routes_effect E w s a JNull args))).
  - destruct (EditTransaction_effect E w s a tid data) as [-> | H]; [done |].
    destruct H as (token & user & m & t & t' & _ & _ & _ & Hok & Hl & Hf & ->).
    destruct (flush_update_keeps_keys t m t' Hok Hf) as [Hid _].
    destruct (transaction_by_id_and_owner_Some _ _ _ _ Hl) as (_ & Hid' & _).
    unfold keys_unique. simpl. rewrite update_row_ids by congruence. done.
  - destruct (DeleteTransaction_effect w s a tid) as [-> | H]; [done |].
    destruct H as (token & user & t & _ & _ & _ & ->).
    unfold keys_unique. simpl. split_and!; try done.
    eapply sublist_NoDup; [exact Ht |].
    unfold delete_row. apply fmap_sublist, sublist_filter.
  - by rewrite (proj1 (proj2 (proj2 (read_routes_effect E w s a JNull args)))).
  - by rewrite (proj2 (proj2 (proj2 (read_routes_effect E w s a JNull args)))).
Qed.

Lemma handle_owners_exist w s a r :
  owners_exist s → owners_exist (handle E w s a r).2.
Proof.
  intros Ho. destruct r as [data|data| |data|args|tid data|tid|args|args];
    simpl.
  - destruct (Register_effect E w s data) as [-> | H]; [done |].
    destruct H as (m & name & email & password & _ & _ & _ & _ & _ & _ & ->).
    intros t Ht. simpl in *. destruct (Ho t Ht) as (u & Hu & Hid).
    exists u. split; [| done]. apply elem_of_app. by left.
  - by rewrite (proj1 (read_routes_effect E w s a data ∅)).
  - by destruct (Logout_effect w s a) as [-> | (t & _ & ->)].
  - destruct (AddTransaction_effect E w s a data) as [-> | H]; [done |].
    destruct H as (token & user & m & t & _ & Hu & _ & Hok & _ & Hi & ->).
    destruct (insert_transaction_inv E w s _ m t Hok Hi) as (_ & Hown & _).
    intros t0 Ht0. simpl in *. apply elem_of_app in Ht0 as [Ht0 | Ht0].
    + by apply Ho.
    + apply list_elem_of_singleton in Ht0 as ->. exists user. split; [| done].
      unfold user_by_email in Hu. apply head_Some in Hu as [l' Hu].
      assert (Hin : user ∈ filter (λ u, User.email u = sub token) (users s))
        by (rewrite Hu; left).
      by apply list_elem_of_filter in Hin as [_ Hin].
  - by rewrite (proj1 (proj2 (read_routes_effect E w s a JNull args))).
  - destruct (EditTransaction_effect E w s a tid data) as [-> | H]; [done |].
    destruct H as (token & user & m & t & t' & _ & _ & _ & Hok & Hl & Hf & ->).
    destruct (flush_update_keeps_keys t m t' Hok Hf) as [_ Hown].
    destruct (transaction_by_id_and_owner_Some _ _ _ _ Hl) as (Hin & _ & _).
    intros t0 Ht0. simpl in *. unfold update_row in Ht0.
    apply list_elem_of_fmap in Ht0 as (r0 & -> & Hr0).
    case_bool_decide; [| by apply Ho].
    rewrite Hown. by apply Ho.
  - destruct (DeleteTransaction_effect w s a tid) as [-> | H]; [done |].
    destruct H as (token & user & t & _ & _ & _ & ->).
    intros t0 Ht0. simpl in *. unfold delete_row in Ht0.
    apply list_elem_of_filter in Ht0 as [_ Ht0]. by apply Ho.
  - by rewrite (proj1 (proj2 (proj2 (read_routes_effect E w s a JNull args)))).
  - by rewrite (proj2 (proj2 (proj2 (read_routes_effect E w s a JNull args)))).
Qed.

End Invariants.

Section StoredValues.
Context (E : Env).

Lemma handle_types_valid w s a r :
  types_valid s → types_valid (handle E w s a r).2.
Proof.
  intros Hty. destruct r as [data|data| |data|args|tid data|tid|args|args];
    simpl.
  - destruct (Register_effect E w s data) as [-> | H]; [done |].
    by destruct H as (m & name & email & password & _ & _ & _ & _ & _ & _ & ->).
  - by rewrite (proj1 (read_routes_effect E w s a data ∅)).
  - by destruct (Logout_effect w s a) as [-> | (t & _ & ->)].
  - destruct (AddTransaction_effect E w s a data) as [-> | H]; [done |].
    destruct H as (token & user & m & t & _ & _ & _ & Hok & _ & Hi & ->).
    destruct (insert_transaction_inv E w s _ m t Hok Hi)
      as (_ & _ & _ & Htype & _).
    destruct Hok as (_ & _ & Hchoice & _).
    intros t0 Ht0. simpl in *. apply elem_of_app in Ht0 as [Ht0 | Ht0];
      [by apply Hty |].
    apply list_elem_of_singleton in Ht0 as ->.
    destruct (Hchoice _ Htype) as [[= ->] | [= ->]]; auto.
  - by rewrite (proj1 (proj2 (read_routes_effect E w s a JNull args))).
  - destruct (EditTransaction_effect E w s a tid data) as [-> | H]; [done |].
    destruct H as (token & user & m & t & t' & _ & _ & _ & Hok & Hl & Hf & ->).
    destruct (flush_update_columns E t m t' Hf) as (_ & _ & _ & Hc4 & _).
    destruct (transaction_by_id_and_owner_Some _ _ _ _ Hl) as (Hin & _ & _).
    destruct Hok as (_ & _ & Hchoice & _).
    intros t0 Ht0. simpl in *. unfold update_row in Ht0.
    apply list_elem_of_fmap in Ht0 as (r0 & -> & Hr0).
    case_bool_decide; [| by apply Hty].
    destruct (m !! "type") as [v|] eqn:Hv; simpl in Hc4.
    + destruct (Hchoice v eq_refl) as [-> | ->]; simpl in Hc4;
        injection Hc4 as <-; auto.
    + injection Hc4 as <-. by apply Hty.
  - destruct (DeleteTransaction_effect w s a tid) as [-> | H]; [done |].
    destruct H as (token & user & t & _ & _ & _ & ->).
    intros t0 Ht0. simpl in *. unfold delete_row in Ht0.
    apply list_elem_of_filter in Ht0 as [_ Ht0]. by apply Hty.
  - by rewrite (proj1 (proj2 (proj2 (read_routes_effect E w s a JNull args)))).
  - by rewrite (proj2 (proj2 (proj2 (read_routes_effect E w s a JNull args)))).
Qed.

Lemma to_integer_value v n :
  driver_reads_integers E → to_integer E v = Some n → integer_value E v = Some n.
Proof.
  intros Hd Hv. destruct v; try (by apply Hd). by simpl in *.
Qed.

Lemma handle_amounts_positive w s a r :
  driver_reads_integers E →
  amounts_positive s → amounts_positive (handle E w s a r).2.
Proof.
  intros Hd Hpos. destruct r as [data|data| |data|args|tid data|tid|args|args];
    simpl.
  - destruct (Register_effect E w s data) as [-> | H]; [done |].
    by destruct H as (m & name & email & password & _ & _ & _ & _ & _ & _ & ->).
  - by rewrite (proj1 (read_routes_effect E w s a data ∅)).
  - by destruct (Logout_effect w s a) as [-> | (t & _ & ->)].
  - destruct (AddTransaction_effect E w s a data) as [-> | H]; [done |].
    destruct H as (token & user & m & t & _ & _ & _ & Hok & _ & Hi & ->).
    destruct (insert_transaction_inv E w s _ m t Hok Hi)
      as (_ & _ & (v & Hv & Hbind) & _).
    destruct Hok as (_ & Hamount & _).
    intros t0 Ht0. simpl in *. apply elem_of_app in Ht0 as [Ht0 | Ht0];
      [by apply Hpos |].
    apply list_elem_of_singleton in Ht0 as ->.
    destruct (Hamount v Hv) as (n & Hn & Hle).
    apply (to_integer_value _ _ Hd) in Hbind. congruence.
  - by rewrite (proj1 (proj2 (read_routes_effect E w s a JNull args))).
  - destruct (EditTransaction_effect E w s a tid data) as [-> | H]; [done |].
    destruct H as (token & user & m & t & t' & _ & _ & _ & Hok & Hl & Hf & ->).
    destruct (flush_update_columns E t m t' Hf) as (_ & _ & Hc3 & _).
    destruct (transaction_by_id_and_owner_Some _ _ _ _ Hl) as (Hin & _ & _).
    destruct Hok as (_ & Hamount & _).
    intros t0 Ht0. simpl in *. unfold update_row in Ht0.
    apply list_elem_of_fmap in Ht0 as (r0 & -> & Hr0).
    case_bool_decide; [| by apply Hpos].
    destruct (m !! "amount") as [v|] eqn:Hv; simpl in Hc3.
    + destruct (py_eq_int v (Transaction.amount t)).
      * injection Hc3 as <-. by apply Hpos.
      * destruct (Hamount v eq_refl) as (n & Hn & Hle).
        apply (to_integer_value _ _ Hd) in Hc3. congruence.
    + injection Hc3 as <-. by apply Hpos.
  - destruct (DeleteTransaction_effect w s a tid) as [-> | H]; [done |].
    destruct H as (token & user & t & _ & _ & _ & ->).
    intros t0 Ht0. simpl in *. unfold delete_row in Ht0.
    apply list_elem_of_filter in Ht0 as [_ Ht0]. by apply Hpos.
  - by rewrite (proj1 (proj2 (proj2 (read_routes_effect E w s a JNull args)))).
  - by rewrite (proj2 (proj2 (proj2 (read_routes_effect E w s a JNull args)))).
Qed.

End StoredValues.

(** X1. Primary keys and e-mails stay unique: if no user id, e-mail,
    blocklist id or transaction id occurs twice, the same holds after any
    sequence of requests. *)
Theorem keys_stay_unique (E : Env) (s : db)
    (trace : list (world * authorization * request)) :
  keys_unique s → keys_unique (run E s trace).
Proof. apply (run_invariant E keys_unique), handle_keys_unique. Qed.

(** X2. Every transaction keeps an owner that exists: if each
    transaction's [user_id] is the key of a user, the same holds after any
    sequence of requests. *)
Theorem owners_stay_users (E : Env) (s : db)
    (trace : list (world * authorization * request)) :
  owners_exist s → owners_exist (run E s trace).
Proof. apply (run_invariant E owners_exist), handle_owners_exist. Qed.

(** X3. Stored types stay within the two choices: if every transaction's
    [type] is income or expense, the same holds after any sequence of
    requests. *)
Theorem types_stay_valid (E : Env) (s : db)
    (trace : list (world * authorization * request)) :
  types_valid s → types_valid (run E s trace).
Proof. apply (run_invariant E types_valid), handle_types_valid. Qed.

(** X4. Stored amounts stay positive, with a driver that stores the
    integer the schema read: if every transaction's [amount] is at least 1,
    the same holds after any sequence of requests. *)
Theorem amounts_stay_positive (E : Env) (s : db)
    (trace : list (world * authorization * request)) :
  driver_reads_integers E →
  amounts_positive s → amounts_positive (run E s trace).
Proof.
  intros Hd. apply (run_invariant E amounts_positive).
  intros w s' a r. by apply handle_amounts_positive.
Qed.

Lemma keys_stay_unique_witness : keys_unique (run Demo.env Demo.store demo_trace).
Proof.
  apply (keys_stay_unique Demo.env Demo.store demo_trace).
  unfold keys_unique. simpl.
  split_and!; apply (bool_decide_unpack _); by vm_compute.
Defined.

Lemma owners_stay_users_witness : owners_exist (run Demo.env Demo.store demo_trace).
Proof.
  apply (owners_stay_users Demo.env Demo.store demo_trace).
  intros t Ht. simpl in Ht. set_unfold in Ht.
  destruct Ht as [-> | [-> | [-> | []]]];
    [exists Demo.alice | exists Demo.alice | exists Demo.bob];
    (split; [set_solver | reflexivity]).
Defined.

Lemma types_stay_valid_witness : types_valid (run Demo.env Demo.store demo_trace).
Proof.
  apply (types_stay_valid Demo.env Demo.store demo_trace).
  intros t Ht. simpl in Ht. set_unfold in Ht.
  destruct Ht as [-> | [-> | [-> | []]]]; simpl; auto.
Defined.

Lemma amounts_stay_positive_witness :
  amounts_positive (run Demo.env Demo.store demo_trace).
Proof.
  apply (amounts_stay_positive Demo.env Demo.store demo_trace).
  - intros v n H. destruct v; simpl in *; try done. by case_match.
  - intros t Ht. simpl in Ht. set_unfold in Ht.
    destruct Ht as [-> | [-> | [-> | []]]]; simpl; lia.
Defined.

(** ** Failure and refusal *)

(** X5. A request that is not answered with 200 or 201 changes nothing:
    validation errors, refused tokens, lookups that find nothing and
    statements that raise all leave the three tables as they were. *)
Theorem failed_request_changes_nothing (E : Env) (w : world) (s : db)
    (a : authorization) (r : request) :
  ¬ succeeded (handle E w s a r).1 → (handle E w s a r).2 = s.
Proof.
  unfold succeeded. intros Hf.
  destruct r as [data|data| |data|args|tid data|tid|args|args]; simpl in *.
  - destruct (Register_effect E w s data) as [H | H]; [done |].
    destruct H as (m & name & email & password & _ & _ & _ & _ & _ & _ & Hr).
    rewrite Hr in Hf. simpl in Hf. tauto.
  - apply (read_routes_effect E w s a data ∅).
  - destruct (Logout_effect w s a) as [H | (t & _ & Hr)]; [done |].
    rewrite Hr in Hf. simpl in Hf. tauto.
  - destruct (AddTransaction_effect E w s a data) as [H | H]; [done |].
    destruct H as (token & user & m & t & _ & _ & _ & _ & _ & _ & Hr).
    rewrite Hr in Hf. simpl in Hf. tauto.
  - apply (read_routes_effect E w s a JNull args).
  - destruct (EditTransaction_effect E w s a tid data) as [H | H]; [done |].
    destruct H as (token & user & m & t & t' & _ & _ & _ & _ & _ & _ & Hr).
    rewrite Hr in Hf. simpl in Hf. tauto.
  - destruct (DeleteTransaction_effect w s a tid) as [H | H]; [done |].
    destruct H as (token & user & t & _ & _ & _ & Hr).
    rewrite Hr in Hf. simpl in Hf. tauto.
  - apply (read_routes_effect E w s a JNull args).
  - apply (read_routes_effect E w s a JNull args).
Qed.

Lemma failed_request_changes_nothing_witness :
  (handle Demo.env Demo.w1 Demo.store (Bearer Demo.token)
     (EditTransaction 1 (obj [("amount", JInt 0)]))).2 = Demo.store.
Proof.
  apply (failed_request_changes_nothing Demo.env Demo.w1 Demo.store
           (Bearer Demo.token) (EditTransaction 1 (obj [("amount", JInt 0)]))).
  vm_compute. intros [H | H]; discriminate.
Defined.

(** X6. No protected route serves a request without credentials that
    verify: without an [Authorization] header and with a token that does not
    decode, the request leaves the database as it was and is answered by
    Flask-RESTful with 500, the answer to the exception of the token check,
    unless it already fails its declared parameters and is answered with 400.
    Register and login do not look at the header. *)
Theorem protected_routes_need_credentials (E : Env) (w : world) (s : db)
    (a a' : authorization) (r : request) :
  (protected r = true → a = NoAuthorization ∨ a = Unverified →
   (handle E w s a r).2 = s
   ∧ (parse_request E r = None →
      (handle E w s a r).1
      = mk_response 500 (obj [("message", JStr "Internal Server Error")]))
   ∧ (status (handle E w s a r).1 = 500 ∨ status (handle E w s a r).1 = 400))
  ∧ (protected r = false → handle E w s a r = handle E w s a' r).
Proof.
  split.
  - intros Hp Ha.
    assert (Hr : jwt_required w s a = inl Api_handle_error)
      by (by destruct Ha as [-> | ->]).
    rewrite (protected_refused E w s a r _ Hp Hr). simpl.
    split; [done |]. split; [by intros -> |].
    destruct (parse_request E r) as [r'|] eqn:Hq; [| by left].
    right. by apply parse_request_status in Hq.
  - intros Hp. by destruct r.
Qed.

(** ** Isolation between users *)

Section Isolation.
Context (E : Env).





End Isolation.





(** ** Deleting, and adding then deleting *)




(** X10. Adding and then deleting is a round trip: the id in the response
    to an add that answered 201 is new to the table, a delete of that id by
    the same user finds the row and answers 200, and the database after the
    delete is the database before the add. *)
Theorem add_then_delete_restores (E : Env) (w : world) (s : db)
    (a : authorization) (data : json) :
  let r := AddTransaction_post E w s a data in
  status r.1 = 201 →
  ∃ t,
    r.1 = mk_response 201 (transaction_schema_dump E t)
    ∧ transactions r.2 = transactions s ++ [t]
    ∧ (Transaction.id t ∉ (Transaction.id <$> transactions s))
    ∧ transaction_by_id_and_owner r.2 (Transaction.id t) (Transaction.user_id t)
      = Some t
    ∧ ∀ w' a' token' user',
        jwt_required w' r.2 a' = inr token' →
        user_by_email r.2 (sub token') = Some user' →
        User.user_id user' = Transaction.user_id t →
        DeleteTransaction_delete w' r.2 a' (Transaction.id t)
        = (mk_response 200
             (obj [("message", JStr "transaction deleted successfully")]), s).
Proof.
  intros r H201.
  destruct (AddTransaction_effect E w s a data) as [Hsame | H].
  { destruct (add_transaction_outcome E w s a data) as [[Hne _] | H]; [done |].
    destruct H as (? & ? & t & _ & _ & _ & Hr & _). fold r in Hr, Hsame.
    rewrite Hr in Hsame. simpl in Hsame.
    apply (f_equal (λ d, length (transactions d))) in Hsame. simpl in Hsame.
    rewrite length_app in Hsame. simpl in Hsame. lia. }
  destruct H as (token & user & m & t & _ & _ & _ & Hok & _ & Hi & Hr).
  fold r in Hr.
  destruct (insert_transaction_inv E w s _ m t Hok Hi) as (Hid & _).
  assert (Hfresh : ∀ x, x ∈ transactions s → Transaction.id x ≠ Transaction.id t).
  { intros x Hx Heq. apply (fresh_id_fresh (Transaction.id <$> transactions s)).
    rewrite <- Hid, <- Heq. by apply list_elem_of_fmap_2. }
  assert (Hlook : transaction_by_id_and_owner r.2 (Transaction.id t)
                                              (Transaction.user_id t) = Some t).
  { rewrite Hr. unfold transaction_by_id_and_owner. simpl.
    rewrite filter_app.
    rewrite (proj2 (filter_nil_Forall _ (transactions s)));
      [| intros x Hx [Hxid _]; by apply (Hfresh x)].
    by rewrite filter_cons_True. }
  exists t. rewrite Hr in *. simpl in *. split_and!; try done.
  - intros Hin. apply list_elem_of_fmap in Hin as (x & Hx & Hxin).
    by apply (Hfresh x).
  - intros w' a' token' user' Hj' Hu' Hown.
    unfold DeleteTransaction_delete. rewrite Hj', Hu', Hown, Hlook. simpl.
    f_equal. destruct s as [us bl ts]. simpl in *. f_equal.
    unfold delete_row. rewrite filter_app, filter_all by done.
    rewrite filter_cons_False by (by intros H; apply H).
    by rewrite app_nil_r.
Qed.

Lemma add_then_delete_restores_witness :
  ∃ t,
    (AddTransaction_post Demo.env Demo.w1 Demo.store (Bearer Demo.token)
       (obj [("amount", JInt 1); ("type", JStr "income");
             ("category", JStr "food")])).1
    = mk_response 201 (transaction_schema_dump Demo.env t)
    ∧ (Transaction.id t ∉ (Transaction.id <$> transactions Demo.store)).
Proof.
  destruct (add_then_delete_restores Demo.env Demo.w1 Demo.store
              (Bearer Demo.token)
              (obj [("amount", JInt 1); ("type", JStr "income");
                    ("category", JStr "food")]) eq_refl)
    as (t & H1 & _ & H2 & _).
  exists t. split; [exact H1 | exact H2].
Defined.

(** ** Listing *)

Section Listing.
Context (E : Env).

(** Consecutive slices of width [n] put together. *)
Lemma chunks_concat {A} (n : nat) (l : list A) (k : nat) :
  (0 < n)%nat →
  concat ((λ i, take n (drop (i * n) l)) <$> seq 0 k) = take (k * n) l.
Proof.
  intros Hn. induction k as [|k IH]; [by rewrite take_0 |].
  rewrite seq_S, fmap_app, concat_app, IH. simpl. rewrite app_nil_r.
  rewrite take_take_drop. f_equal. lia.
Qed.

End Listing.



(** X12. The pages partition the selected rows: for a given [per_page],
    the items of pages 1 to [pages], one after the other, are exactly the
    rows the query selects, each once and in their order. *)
Theorem pages_partition_the_rows (E : Env) (rows : list Transaction.t)
    (per_page : Z) :
  let pages := Pagination.pages (paginate E rows 1 per_page) in
  concat ((λ k, Pagination.items (paginate E rows (Z.of_nat k) per_page))
            <$> seq 1 (Z.to_nat pages))
  = rows.
Proof.
  intros pages.
  pose proof (paginate_pages E rows 1 per_page) as [_ Hle].
  pose proof (paginate_per_page E rows 1 per_page) as Hpp.
  fold pages in Hle. subst pages.
  unfold paginate in *. simpl in *.
  set (pp := if _ <? 1 then 20 else _) in *.
  set (pages := if _ =? 0 then 0 else _) in *.
  assert (Hpages : 0 ≤ pages)
    by (subst pages; case_match; [lia |]; apply Z.div_pos; lia).
  clearbody pages pp.
  rewrite <- (fmap_S_seq 0), <- list_fmap_compose.
  erewrite (list_fmap_ext _ (λ i, take (Z.to_nat pp) (drop (i * Z.to_nat pp) rows))).
  - rewrite chunks_concat by lia. apply take_ge.
    apply Nat2Z.inj_le. rewrite Nat2Z.inj_mul, !Z2Nat.id by lia. exact Hle.
  - intros i k _. simpl.
    destruct (Z.of_nat (S k) <? 1) eqn:Hk.
    { apply Z.ltb_lt in Hk. rewrite Nat2Z.inj_succ in Hk.
      pose proof (Nat2Z.is_nonneg k). exfalso. lia. }
    do 2 f_equal. rewrite <- (Nat2Z.id (k * Z.to_nat pp)). f_equal.
    rewrite Nat2Z.inj_mul, Z2Nat.id by lia. lia.
Qed.

(** ** Category breakdown *)

Section Breakdown.







End Breakdown.



(** ** Registering and logging in *)

Section Accounts.
Context (E : Env).

(** No request removes or changes a user. *)
Lemma handle_users w s a r :
  ∃ l, users (handle E w s a r).2 = users s ++ l.
Proof.
  destruct r as [data|data| |data|args|tid data|tid|args|args]; simpl.
  - destruct (Register_effect E w s data) as [-> | H];
      [exists []; by rewrite app_nil_r |].
    destruct H as (m & name & email & password & _ & _ & _ & _ & _ & _ & ->).
    by eexists.
  - rewrite (proj1 (read_routes_effect E w s a data ∅)).
    exists []. by rewrite app_nil_r.
  - destruct (Logout_effect w s a) as [-> | (t & _ & ->)];
      exists []; by rewrite app_nil_r.
  - destruct (AddTransaction_effect E w s a data) as [-> | H];
      [exists []; by rewrite app_nil_r |].
    destruct H as (token & user & m & t & _ & _ & _ & _ & _ & _ & ->).
    exists []. by rewrite app_nil_r.
  - rewrite (proj1 (proj2 (read_routes_effect E w s a JNull args))).
    exists []. by rewrite app_nil_r.
  - destruct (EditTransaction_effect E w s a tid data) as [-> | H];
      [exists []; by rewrite app_nil_r |].
    destruct H as (token & user & m & t & t' & _ & _ & _ & _ & _ & _ & ->).
    exists []. by rewrite app_nil_r.
  - destruct (DeleteTransaction_effect w s a tid) as [-> | H];
      [exists []; by rewrite app_nil_r |].
    destruct H as (token & user & t & _ & _ & _ & ->).
    exists []. by rewrite app_nil_r.
  - rewrite (proj1 (proj2 (proj2 (read_routes_effect E w s a JNull args)))).
    exists []. by rewrite app_nil_r.
  - rewrite (proj2 (proj2 (proj2 (read_routes_effect E w s a JNull args)))).
    exists []. by rewrite app_nil_r.
Qed.

Lemma run_users trace s : ∃ l, users (run E s trace) = users s ++ l.
Proof.
  revert s. induction trace as [|[[w a] req] trace IH]; intros s.
  - exists []. by rewrite app_nil_r.
  - destruct (IH (handle E w s a req).2) as [l2 H2].
    destruct (handle_users w s a req) as [l1 H1].
    exists (l1 ++ l2). unfold run in *. simpl. rewrite H2, H1.
    by rewrite app_assoc.
Qed.

(** A user found by e-mail is found again, the same, among more users. *)
Lemma user_by_email_mono s s' l email u :
  users s' = users s ++ l →
  user_by_email s email = Some u → user_by_email s' email = Some u.
Proof.
  unfold user_by_email. intros -> H. rewrite filter_app.
  apply head_Some in H as [l' ->]. done.
Qed.

End Accounts.

(** X14. Register answers 400, storing nothing, exactly when the body is
    not a dictionary with [name], [email] and [password] as strings, a
    well-formed e-mail and no further key.  A body that passes, with an
    e-mail no user has, is answered with 201 and the new user's [user_id],
    [name], [email] and [created_at], not the password; the user is appended
    with a fresh key and with the hash of the password, not the password, in
    its [password] column. *)
Theorem register_outcome (E : Env) (w : world) (s : db) (data : json) :
  let r := Register_post E w s data in
  (status r.1 = 400 ↔ ¬ ∃ m, data = JObj m ∧ user_fields_ok E m)
  ∧ (status r.1 = 400 → r.2 = s)
  ∧ (∀ m name email password,
       data = JObj m → user_fields_ok E m →
       m !! "name" = Some (JStr name) →
       m !! "email" = Some (JStr email) →
       m !! "password" = Some (JStr password) →
       (∀ u, u ∈ users s → User.email u ≠ email) →
       let new_user :=
         User.mk (fresh_id (User.user_id <$> users s)) name email
                 (generate_password_hash E password (salt w)) (datetime_now w) in
       r = (mk_response 201
              (obj [ ("user_id", JInt (User.user_id new_user));
                     ("name", JStr name);
                     ("email", JStr email);
                     ("created_at", JStr (isoformat E (datetime_now w))) ]),
            mk_db (users s ++ [new_user]) (token_blocklist s) (transactions s))).
Proof.
  intros r. split_and!.
  - subst r. unfold Register_post.
    destruct (parse_request E (Register data)) as [r|] eqn:Hq.
    { apply parse_request_status in Hq as Hs. simpl. split; [| done].
      intros _ (m & -> & Hok). by rewrite (register_parse E m Hok) in Hq. }
    case_bool_decide as Hv.
    + split; [| done]. intros _ (m & -> & Hok).
      by apply Hv, user_schema_full.
    + split.
      * repeat case_match; simpl; discriminate.
      * intros Hno. destruct Hno.
        destruct data as [| | | | | |m];
          try (by apply Schema_validate_not_dict in Hv).
        exists m. split; [done |]. by apply user_schema_full.
  - intros H4. destruct (Register_effect E w s data) as [H | H]; [done |].
    destruct H as (m & name & email & password & _ & _ & _ & _ & _ & _ & Hr).
    fold r in Hr. rewrite Hr in H4. discriminate.
  - intros m name email password -> Hok Hn He Hp Hfresh new_user.
    subst r. unfold Register_post. rewrite (register_parse E m Hok).
    rewrite (proj2 (user_schema_full E m) Hok).
    rewrite bool_decide_eq_false_2 by (by intros H; apply H).
    rewrite Hn, He, Hp. rewrite bool_decide_eq_false_2; [done |].
    intros Hex. apply Exists_exists in Hex as (u & Hu & Hue).
    by apply (Hfresh u).
Qed.


(** A registration that is not answered with 201 stores nothing; one that
    is appends the new user. *)
Lemma Register_cases (E : Env) (w : world) (s : db) (data : json) :
  let r := Register_post E w s data in
  (status r.1 ≠ 201 ∧ r.2 = s)
  ∨ ∃ m name email password,
      data = JObj m ∧ user_fields_ok E m
      ∧ m !! "name" = Some (JStr name)
      ∧ m !! "email" = Some (JStr email)
      ∧ m !! "password" = Some (JStr password)
      ∧ (∀ u, u ∈ users s → User.email u ≠ email)
      ∧ r.2 = mk_db (users s ++
                       [User.mk (fresh_id (User.user_id <$> users s)) name email
                                (generate_password_hash E password (salt w))
                                (datetime_now w)])
                    (token_blocklist s) (transactions s).
Proof.
  unfold Register_post.
  destruct (parse_request E (Register data)) as [r|] eqn:Hq.
  { left. apply parse_request_status in Hq. simpl. by rewrite Hq. }
  case_bool_decide as Hv; [by left |].
  destruct data as [| | | | | |m]; try by left.
  destruct (m !! "name") as [[| | | |name| |]|] eqn:Hn; try by left.
  destruct (m !! "email") as [[| | | |email| |]|] eqn:He; try by left.
  destruct (m !! "password") as [[| | | |password| |]|] eqn:Hp; try by left.
  case_bool_decide as Hex; [by left |].
  right. exists m, name, email, password. split_and!; try done.
  - by apply user_schema_full.
  - intros u Hu Hue. apply Hex, Exists_exists. by exists u.
Qed.

Lemma Register_201 (E : Env) (w : world) (s : db) (data : json) :
  status (Register_post E w s data).1 = 201 →
  ∃ m name email password,
    data = JObj m ∧ user_fields_ok E m
    ∧ m !! "name" = Some (JStr name)
    ∧ m !! "email" = Some (JStr email)
    ∧ m !! "password" = Some (JStr password)
    ∧ (∀ u, u ∈ users s → User.email u ≠ email)
    ∧ (Register_post E w s data).2
      = mk_db (users s ++
                 [User.mk (fresh_id (User.user_id <$> users s)) name email
                          (generate_password_hash E password (salt w))
                          (datetime_now w)])
              (token_blocklist s) (transactions s).
Proof.
  intros H201. by destruct (Register_cases E w s data) as [[Hne _] | H].
Qed.

(** X16. Who has registered can log in: with a hash function whose check
    accepts the password it hashed, after a register request answered with
    201 and any requests after it, a login with the e-mail and the password
    of that request is answered with 200 and a token for that e-mail. *)
Theorem registered_user_can_log_in (E : Env) (w : world) (s : db)
    (data : json) (trace : list (world * authorization * request))
    (w' : world) :
  (∀ password salt,
     check_password_hash E (generate_password_hash E password salt) password
     = true) →
  status (Register_post E w s data).1 = 201 →
  ∃ m email password,
    data = JObj m
    ∧ m !! "email" = Some (JStr email)
    ∧ m !! "password" = Some (JStr password)
    ∧ let s' := run E (Register_post E w s data).2 trace in
      Login_post E w' s' (obj [("email", JStr email); ("password", JStr password)])
      = (mk_response 200
           (obj [("access_token",
                  JStr (encode_token E (create_access_token w' email)))]), s').
Proof.
  intros Hhash H201.
  destruct (Register_201 E w s data H201)
    as (m & name & email & password & -> & Hok & Hn & He & Hp & Hfresh & Hr).
  exists m, email, password. split_and!; try done. intros s'.
  set (new_user := User.mk (fresh_id (User.user_id <$> users s)) name email
                           (generate_password_hash E password (salt w))
                           (datetime_now w)) in *.
  assert (Hu : user_by_email s' email = Some new_user).
  { destruct (run_users E trace (Register_post E w s (JObj m)).2) as [l Hl].
    eapply user_by_email_mono; [exact Hl |].
    rewrite Hr. unfold user_by_email. simpl. rewrite filter_app.
    rewrite (proj2 (filter_nil_Forall _ (users s))) by done.
    by rewrite filter_cons_True. }
  set (body := list_to_map [("email", JStr email); ("password", JStr password)]
               : gmap string json).
  assert (Hbe : body !! "email" = Some (JStr email)) by reflexivity.
  assert (Hbp : body !! "password" = Some (JStr password)) by reflexivity.
  assert (Hbn : body !! "name" = None) by reflexivity.
  assert (Hlogin : login_fields_ok E body).
  { destruct Hok as (_ & _ & (e & He' & Heok) & _).
    rewrite He in He'. injection He' as <-.
    split_and!; eauto.
    - intros k Hk. apply elem_of_dom in Hk.
      subst body. rewrite dom_list_to_map_L in Hk. simpl in Hk.
      set_unfold. naive_solver.
    - intros v Hv. rewrite Hbn in Hv. discriminate. }
  unfold Login_post, obj. fold body. rewrite (login_parse E body Hlogin).
  rewrite (proj2 (user_schema_login E body) Hlogin).
  rewrite bool_decide_eq_false_2 by (by intros H; apply H).
  rewrite Hbe, Hbp, Hu. simpl. by rewrite Hhash.
Qed.

Lemma prefix_hash_checks (password salt : string) :
  check_password_hash prefix_hash_env
    (generate_password_hash prefix_hash_env password salt) password = true.
Proof.
  simpl. induction password as [|c password IH]; simpl.
  - by destruct salt.
  - destruct (Ascii.ascii_dec c c); [exact IH | done].
Qed.

Lemma registered_user_can_log_in_witness :
  status
    (Login_post prefix_hash_env Demo.w2
       (run prefix_hash_env
          (Register_post prefix_hash_env Demo.w0 Demo.store
             (obj [("name", JStr "Carol"); ("email", JStr "carol@example.com");
                   ("password", JStr "pass1234")])).2
          [(Demo.w1, Bearer Demo.token, DeleteTransaction 2)])
       (obj [("email", JStr "carol@example.com");
             ("password", JStr "pass1234")])).1 = 200.
Proof.
  destruct (registered_user_can_log_in prefix_hash_env Demo.w0 Demo.store
              (obj [("name", JStr "Carol"); ("email", JStr "carol@example.com");
                    ("password", JStr "pass1234")])
              [(Demo.w1, Bearer Demo.token, DeleteTransaction 2)] Demo.w2
              prefix_hash_checks eq_refl)
    as (m & email & password & Hm & He & Hp & Hl).
  vm_compute. reflexivity.
Defined.

(** ** Tokens *)

(** X17. A token that login issues is accepted for an hour: presented no
    earlier than it was issued, it passes the check while less than 3600
    seconds have gone by and its [jti] is not on the blocklist.  Once the
    hour is over or the [jti] is on the blocklist the check raises, and a
    request with the token, such as adding the three required fields, is
    answered by Flask-RESTful with 500 and stores nothing.  While the token
    passes, adding the three required fields for the user it names is
    answered with 201. *)
Theorem login_token_is_accepted_for_an_hour (E : Env) (w0 : world)
    (identity : string) (w : world) (s : db) :
  let t := create_access_token w0 identity in
  now w0 ≤ now w →
  (now w < now w0 + 3600 → check_if_token_revoked s t = false →
   jwt_required w s (Bearer t) = inr t)
  ∧ (now w0 + 3600 ≤ now w ∨ check_if_token_revoked s t = true →
     ∀ ty c,
       ty = "income" ∨ ty = "expense" →
       AddTransaction_post E w s (Bearer t)
         (obj [("amount", JInt 1); ("type", JStr ty); ("category", JStr c)])
       = (mk_response 500 (obj [("message", JStr "Internal Server Error")]), s))
  ∧ (∀ user ty c,
       now w < now w0 + 3600 → check_if_token_revoked s t = false →
       user_by_email s identity = Some user →
       ty = "income" ∨ ty = "expense" →
       status (AddTransaction_post E w s (Bearer t)
                 (obj [("amount", JInt 1); ("type", JStr ty);
                       ("category", JStr c)])).1 = 201).
Proof.
  intros t Hle.
  assert (Hpass : now w < now w0 + 3600 → check_if_token_revoked s t = false →
                  jwt_required w s (Bearer t) = inr t).
  { intros Hlt Hrev. apply jwt_required_passes; [subst t; simpl; lia.. | done]. }
  split_and!; [exact Hpass | |].
  - intros H ty c Hty.
    assert (Hr : jwt_required w s (Bearer t) = inl Api_handle_error).
    { apply jwt_required_refused.
      destruct H as [H | H]; [left; subst t; simpl; lia | by right]. }
    destruct (minimal_body_inserted E w s 0 1 ty c ltac:(lia) Hty)
      as (Hq & _ & _).
    unfold AddTransaction_post, obj. by rewrite Hq, Hr.
  - intros user ty c Hlt Hrev Hu Hty. unfold AddTransaction_post, obj.
    destruct (minimal_body_inserted E w s (User.user_id user) 1 ty c
                ltac:(lia) Hty) as (Hq & Hv & Hi).
    rewrite Hq, (Hpass Hlt Hrev), Hv.
    rewrite bool_decide_eq_false_2 by (by intros H; apply H).
    change (sub t) with identity. by rewrite Hu, Hi.
Qed.

Lemma login_token_is_accepted_for_an_hour_witness :
  jwt_required Demo.w2 Demo.store (Bearer Demo.token) = inr Demo.token.
Proof.
  apply (login_token_is_accepted_for_an_hour Demo.env Demo.w0
           "alice@example.com" Demo.w2 Demo.store);
    [vm_compute; discriminate | reflexivity | reflexivity].
Defined.

(** ** The outcomes of an edit *)

Section EditOutcomes.
Context (E : Env).




End EditOutcomes.




